(** * Building AI Applications with LangChain and GPT: the notebook pipeline

    A shallow embedding of [notebook-solution.ipynb]: the code cells of the
    notebook, in the order in which they appear, as a program over an explicit
    world (process environment, files on disk, persisted vector stores,
    standard output and the sequence of calls that leave the notebook).

    Python numbers are modelled as Python has them: [int] is an unbounded
    integer ([Z], or [N] for a [len]), [float] is an IEEE 754 binary64
    value, represented by the rational it denotes, with every operation
    rounded to nearest, ties to even. *)

From Stdlib Require Import ZArith QArith Qabs Qround Qpower Qreduction Lqa Lia.
From Stdlib Require Import Ascii String DecimalString.
From Corelib Require PrimInt63 PrimFloat FloatOps SpecFloat.
From stdpp Require Import gmap strings list sorting.

(** ** Python floats: IEEE 754 binary64, round to nearest even *)

Module Binary64.

Local Open Scope Q_scope.

Definition prec : Z := 53.
Definition emin : Z := -1074.
Definition emax : Z := 1024.

Definition pow2 (e : Z) : Q := 2 ^ e.

(** Round to the nearest integer, ties to the even one. *)
Definition rne (x : Q) : Z :=
  let f := Qfloor x in
  match Qcompare (x - inject_Z f) (1 # 2) with
  | Lt => f
  | Gt => (f + 1)%Z
  | Eq => if Z.even f then f else (f + 1)%Z
  end.

(** [mag x] is the exponent [e] with [2^(e-1) <= |x| < 2^e] (for [x] not 0). *)
Definition mag (x : Q) : Z :=
  let a := Z.abs (Qnum x) in
  let d := (Z.log2 a - Z.log2 (Zpos (Qden x)))%Z in
  if Qle_bool (pow2 d) (Qabs x) then (d + 1)%Z else d.

(** Exponent of the unit in the last place of the binade of [x]; the
    subnormal numbers share the exponent [emin]. *)
Definition cexp (x : Q) : Z := Z.max (mag x - prec) emin.

(** The binary64 number nearest to [x] (unbounded exponent range above:
    overflow is decided by the caller, see [finite]). *)
Definition round64 (x : Q) : Q :=
  let e := cexp x in
  Qred (inject_Z (rne (x / pow2 e)) * pow2 e).

(** Does a rounded result fit the binary64 exponent range? *)
Definition finite (x : Q) : bool :=
  negb (Qle_bool (pow2 emax) (Qabs x)).

(** The unit roundoff. *)
Definition u : Q := pow2 (- prec).

End Binary64.

(** ** Python values and built-ins used by the notebook *)

Module Python.

Import Binary64.

(** A [float]; the sign of zero is not tracked (no operation of the notebook
    can tell the two zeros apart on the values it computes). *)
Inductive float : Type :=
| Finite (q : Q)
| Infinity (negative : bool)
| NaN.

Inductive Exception : Type :=
| ZeroDivisionError
| OverflowError
| KeyError (key : string)
| ValueError (message : string)
| ConfigurationError (variable : string).

(** The outcome of an expression: an exception raised, or a value. *)
Definition Result (A : Type) : Type := (Exception + A)%type.

Definition map_result {A B : Type} (f : A -> B) (r : Result A) : Result B :=
  match r with
  | inl e => inl e
  | inr a => inr (f a)
  end.

Definition Qneg (q : Q) : bool := negb (Qle_bool 0 q).

(** A decimal literal such as [0.0004] denotes the nearest float. *)
Definition float_literal (q : Q) : float := Finite (round64 q).

(** [a / b] on two [int]s: the correctly rounded quotient, [OverflowError]
    when it does not fit a float. *)
Definition int_true_divide (a b : Z) : Result float :=
  if (b =? 0)%Z then inl ZeroDivisionError
  else
    let r := round64 (inject_Z a / inject_Z b)%Q in
    if finite r then inr (Finite r) else inl OverflowError.

(** [x * y] on two [float]s; an overflow gives an infinity, not an exception. *)
Definition float_mul (x y : float) : float :=
  match x, y with
  | NaN, _ | _, NaN => NaN
  | Finite a, Finite b =>
      let r := round64 (a * b)%Q in
      if finite r then Finite r else Infinity (xorb (Qneg a) (Qneg b))
  | Infinity s, Finite b | Finite b, Infinity s =>
      if Qeq_bool b 0 then NaN else Infinity (xorb s (Qneg b))
  | Infinity s, Infinity t => Infinity (xorb s t)
  end.

(** [len(l)]: an [int] that is never negative. *)
Definition len {A : Type} (l : list A) : N := N.of_nat (length l).

(** [sum(l)] on a list of lengths. *)
Definition sum (l : list N) : N := foldr N.add 0%N l.

(** [str(n)] / [f"{n}"] for a non-negative [int]. *)
Definition str_int (n : N) : string := NilZero.string_of_uint (N.to_uint n).

Definition two_digits (n : N) : string :=
  if (n <? 10)%N then "0" +:+ str_int n else str_int n.

(** [f"{x:.2f}"]: the exact value of the float, correctly rounded to two
    decimals (ties to even). *)
Definition format_2f (x : float) : string :=
  match x with
  | Finite q =>
      let cents := Z.to_N (rne (Qabs q * 100)%Q) in
      (if Qneg q then "-" else EmptyString) +:+
      str_int (cents / 100) +:+ "." +:+ two_digits (cents mod 100)
  | Infinity neg => if neg then "-inf" else "inf"
  | NaN => "nan"
  end.

Definition newline : string := String "010"%char EmptyString.

(** [sep.join(l)]. *)
Fixpoint join (sep : string) (l : list string) : string :=
  match l with
  | [] => EmptyString
  | [s] => s
  | s :: rest => s +:+ sep +:+ join sep rest
  end.

(** [s + c] for a string and a character. *)
Fixpoint snoc (s : string) (c : ascii) : string :=
  match s with
  | EmptyString => String c EmptyString
  | String a rest => String a (snoc rest c)
  end.

(** [template.format] of Python's [str] on keyword arguments, for
    replacement fields that are plain names: [{name}] is replaced by
    [kwargs[name]], doubled braces stand for one brace.  Fields with a
    conversion, a format specification, an attribute or an index, and
    positional fields, are outside the model.  [field] holds the name read so
    far while inside a field. *)
Fixpoint format_from (template : string) (field : option string)
    (kwargs : gmap string string) : Result string :=
  match template with
  | EmptyString =>
      match field with
      | None => inr EmptyString
      | Some _ => inl (ValueError "expected '}' before end of string")
      end
  | String c rest =>
      match field with
      | Some name =>
          if Ascii.eqb c "}" then
            match kwargs !! name with
            | Some v => map_result (String.append v) (format_from rest None kwargs)
            | None => inl (KeyError name)
            end
          else if Ascii.eqb c "{" then
            inl (ValueError "unexpected '{' in field name")
          else format_from rest (Some (snoc name c)) kwargs
      | None =>
          if Ascii.eqb c "{" then
            match rest with
            | String c' rest' =>
                if Ascii.eqb c' "{"
                then map_result (String "{") (format_from rest' None kwargs)
                else format_from rest (Some EmptyString) kwargs
            | EmptyString =>
                inl (ValueError "Single '{' encountered in format string")
            end
          else if Ascii.eqb c "}" then
            match rest with
            | String c' rest' =>
                if Ascii.eqb c' "}"
                then map_result (String "}") (format_from rest' None kwargs)
                else inl (ValueError "Single '}' encountered in format string")
            | EmptyString =>
                inl (ValueError "Single '}' encountered in format string")
            end
          else map_result (String c) (format_from rest None kwargs)
      end
  end.

Definition format (template : string) (kwargs : gmap string string)
  : Result string :=
  format_from template None kwargs.

End Python.

(** ** The world around the notebook *)

Import Python.

(** A LangChain [Document]: [page_content] and [metadata]. *)
Record Document : Type := {
  page_content : string;
  metadata : gmap string string;
}.

(** An entry of the vector store: identifier, embedding vector, text and
    metadata. *)
Record Entry : Type := {
  entry_id : string;
  entry_vector : list Q;
  entry_text : string;
  entry_metadata : gmap string string;
}.

(** The calls that leave the notebook, as the cells spell them. *)
Inductive Call : Type :=
| pip_install (requirement : string)
| loader_load (path features : string)
| splitter_split_documents (chunk_size chunk_overlap : nat)
| tiktoken_encoding_for_model (model : string)
| environ_get (variable : string)
| chroma_open (persist_directory : string)
| embed_documents (texts : list string)
| chroma_persist (persist_directory : string)
| embed_query (text : string)
| chroma_similarity_search (with_score : bool) (query : string) (k : option nat)
| chat_completion_create (temperature : Q) (prompt : string).

(** The stage of the pipeline a call belongs to. *)
Inductive Stage : Type :=
| Setup
| Configuration
| DocumentLoading
| Chunking
| TokenCounting
| Embedding
| Retrieval
| Chat.

Global Instance Stage_eq_dec : EqDecision Stage.
Proof. solve_decision. Defined.

Definition stage_of (c : Call) : Stage :=
  match c with
  | pip_install _ => Setup
  | environ_get _ => Configuration
  | loader_load _ _ => DocumentLoading
  | splitter_split_documents _ _ => Chunking
  | tiktoken_encoding_for_model _ => TokenCounting
  | chroma_open _ | embed_documents _ | chroma_persist _ => Embedding
  | embed_query _ | chroma_similarity_search _ _ _ => Retrieval
  | chat_completion_create _ _ => Chat
  end.

Record World : Type := {
  (** [os.environ] *)
  environ : gmap string string;
  (** the files under each directory: path and raw HTML *)
  html_files : gmap string (list (string * string));
  (** the vector stores persisted on disk, by directory *)
  chroma_data : gmap string (list Entry);
  (** what was printed, oldest first *)
  stdout : list string;
  (** the calls made so far, oldest first *)
  calls : list Call;
}.

(** What the wrapped libraries and remote services compute; the notebook
    fixes none of it.  Each field is the result of a call that returns: the
    failures of the services, of the network and of the file system are not
    modelled, so a run of the model is a run in which every library and
    remote call that is made returns.  The one failure of a library that is
    modelled is the missing credential. *)
Class Externals : Type := {
  (** text of an HTML page, markup removed, for a parser feature *)
  strip_html : string -> string -> string;
  (** the splitter on one text, for a chunk size and a chunk overlap *)
  split_text : nat -> nat -> string -> list string;
  (** the tokens of a text under the tokenizer of a model *)
  tiktoken_encode : string -> string -> list nat;
  (** the embedding model *)
  embedding_of : string -> list Q;
  (** the distance of the vector index *)
  distance : list Q -> list Q -> Q;
  (** the number of results of a search that is given no [k]: a constant of
      the vector-store library, which neither the notebook nor the
      specification states *)
  DEFAULT_K : nat;
  (** the chat model, for a sampling temperature and a prompt *)
  chat_completion : Q -> string -> string;
  (** [repr] of a float *)
  float_repr : Q -> string;
}.

(** ** Cells as programs: state passing with exceptions *)

Definition Run (A : Type) : Type := World -> Result A * World.

Definition ret {A : Type} (a : A) : Run A := fun w => (inr a, w).

Definition raise {A : Type} (e : Exception) : Run A := fun w => (inl e, w).

Definition bind {A B : Type} (m : Run A) (k : A -> Run B) : Run B :=
  fun w =>
    match m w with
    | (inl e, w') => (inl e, w')
    | (inr a, w') => k a w'
    end.

Declare Scope run_scope.
Delimit Scope run_scope with run.
Bind Scope run_scope with Run.

Notation "x <- m ;; k" := (bind m (fun x => k))
  (at level 100, m at next level, right associativity) : run_scope.
Notation "m ;; k" := (bind m (fun _ => k))
  (at level 100, right associativity) : run_scope.

Local Open Scope run_scope.

(** An expression that may raise, evaluated in place. *)
Definition lift {A : Type} (r : Result A) : Run A := fun w => (r, w).

Definition call (c : Call) : Run unit :=
  fun w =>
    (inr tt,
     {| environ := environ w; html_files := html_files w;
        chroma_data := chroma_data w; stdout := stdout w;
        calls := calls w ++ [c] |}).

Definition print (s : string) : Run unit :=
  fun w =>
    (inr tt,
     {| environ := environ w; html_files := html_files w;
        chroma_data := chroma_data w; stdout := stdout w ++ [s];
        calls := calls w |}).

Definition read_environ : Run (gmap string string) := fun w => (inr (environ w), w).

Definition read_html_files : Run (gmap string (list (string * string))) :=
  fun w => (inr (html_files w), w).

Definition read_chroma_data : Run (gmap string (list Entry)) :=
  fun w => (inr (chroma_data w), w).

Definition write_chroma_data (dir : string) (entries : list Entry) : Run unit :=
  fun w =>
    (inr tt,
     {| environ := environ w; html_files := html_files w;
        chroma_data := <[dir := entries]> (chroma_data w); stdout := stdout w;
        calls := calls w |}).

(** [for x in l: body(x)] *)
Fixpoint for_each {A : Type} (l : list A) (body : A -> Run unit) : Run unit :=
  match l with
  | [] => ret tt
  | x :: rest => body x ;; for_each rest body
  end.

(** ** The libraries the notebook calls *)

Section Libraries.

Context `{Externals}.

(** *** langchain.document_loaders *)

(** Modelled from the spec: the document loader, which is library code and
    not part of the repository.  It "reads a directory of HTML files from
    disk, strips markup, and yields one text document per file, carrying a
    [source] identifier (file path/URL) in metadata". *)
Definition ReadTheDocsLoader_load (path features : string) : Run (list Document) :=
  call (loader_load path features) ;;
  files <- read_html_files ;;
  ret ((fun f : string * string =>
          {| page_content := strip_html features f.2;
             metadata := {[ "source" := f.1 ]} |})
       <$> default [] (files !! path)).

(** *** langchain.text_splitter *)

Record RecursiveCharacterTextSplitter : Type := {
  chunk_size : nat;
  chunk_overlap : nat;
}.

(** Modelled from the spec: the chunker, which is library code and not part
    of the repository.  Each document is split on its own and every chunk
    has "metadata: inherited from parent Document"; how one text is cut is
    left to [split_text]. *)
Definition split_documents (text_splitter : RecursiveCharacterTextSplitter)
    (docs : list Document) : Run (list Document) :=
  call (splitter_split_documents (chunk_size text_splitter)
          (chunk_overlap text_splitter)) ;;
  ret (d ← docs;
       (fun chunk => {| page_content := chunk; metadata := metadata d |})
       <$> split_text (chunk_size text_splitter) (chunk_overlap text_splitter)
             (page_content d)).

(** *** tiktoken *)

Record Encoding : Type := { model_name : string }.

(** Modelled from the spec: the tokenizer, which is library code and not part
    of the repository; it "tokenizes chunk text using a model-specific
    tokenizer". *)
Definition encoding_for_model (model : string) : Run Encoding :=
  call (tiktoken_encoding_for_model model) ;;
  ret {| model_name := model |}.

Definition Encoding_encode (encoder : Encoding) (text : string) : list nat :=
  tiktoken_encode (model_name encoder) text.

(** *** langchain.embeddings.openai *)

Definition OPENAI_API_KEY : string := "OPENAI_API_KEY".

Record OpenAIEmbeddings : Type := { openai_api_key : string }.

(** Modelled from the spec: the client of the embedding API, which is
    library code and not part of the repository.  "An API credential read
    from process environment"; "absence is a fatal configuration error". *)
Definition OpenAIEmbeddings_new : Run OpenAIEmbeddings :=
  call (environ_get OPENAI_API_KEY) ;;
  env <- read_environ ;;
  match env !! OPENAI_API_KEY with
  | Some key => ret {| openai_api_key := key |}
  | None => raise (ConfigurationError OPENAI_API_KEY)
  end.

(** *** langchain.vectorstores *)

Record Chroma : Type := {
  persist_directory : string;
  embedding_function : OpenAIEmbeddings;
  (** the entries of the store, as loaded or added *)
  collection : list Entry;
}.

(** Modelled from the spec: [load(persist_path) -> Store handle], which is
    library code and not part of the repository; it "opens an existing
    on-disk store without re-embedding". *)
Definition Chroma_new (persist_directory : string)
    (embedding_function : OpenAIEmbeddings) : Run Chroma :=
  call (chroma_open persist_directory) ;;
  data <- read_chroma_data ;;
  ret {| persist_directory := persist_directory;
         embedding_function := embedding_function;
         collection := default [] (data !! persist_directory) |}.

Definition entry_of (position : nat) (d : Document) : Entry :=
  {| entry_id := str_int (N.of_nat position);
     entry_vector := embedding_of (page_content d);
     entry_text := page_content d;
     entry_metadata := metadata d |}.

(** Modelled from the spec: [ingest(chunks) -> void], which is library code
    and not part of the repository: "for each chunk, request an embedding
    vector from the external API, then write (vector, text, metadata) to the
    persistent store"; the store is "append-only during ingestion".  In the
    library the write to disk is a call of its own, [persist]. *)
Definition Chroma_from_documents (documents : list Document)
    (embedding : OpenAIEmbeddings) (persist_directory : string) : Run Chroma :=
  db <- Chroma_new persist_directory embedding ;;
  call (embed_documents (page_content <$> documents)) ;;
  ret {| persist_directory := persist_directory;
         embedding_function := embedding;
         collection :=
           collection db ++
           imap (fun i d => entry_of (length (collection db) + i) d) documents |}.

(** Modelled from the spec: the write of a store to its directory ("Side
    effect: disk writes"). *)
Definition Chroma_persist (db : Chroma) : Run unit :=
  call (chroma_persist (persist_directory db)) ;;
  write_chroma_data (persist_directory db) (collection db).

Definition by_distance : relation (Document * Q) :=
  fun a b => (a.2 <= b.2)%Q.

Global Instance by_distance_dec : RelDecision by_distance.
Proof.
  intros a b. unfold by_distance.
  destruct (Qlt_le_dec b.2 a.2) as [Hlt | Hle].
  - right. intros Hle. exact (Qlt_not_le _ _ Hlt Hle).
  - left. exact Hle.
Defined.

Definition scored (query_vector : list Q) (e : Entry) : Document * Q :=
  ({| page_content := entry_text e; metadata := entry_metadata e |},
   distance query_vector (entry_vector e)).

(** Modelled from the spec: the nearest-neighbour search of the vector
    store, which is library code and not part of the repository.  It
    "computes nearest neighbors by vector distance, returns the [k] closest
    entries ordered by ascending distance"; in the words of the notebook:
    calculate the distance between the query vector and all other vectors,
    sort the results, return the most similar documents. *)
Definition nearest (entries : list Entry) (query_vector : list Q) (k : nat)
  : list (Document * Q) :=
  take k (merge_sort by_distance (scored query_vector <$> entries)).

(** Modelled from the spec: [query(text, k)], which "embeds [text] via the
    same external embedding model used at ingestion" and searches the
    store.  The specification says "top-K" and leaves K open: a search that
    is given no [k] uses the default of the library, [DEFAULT_K]. *)
Definition similarity_search_with_score (db : Chroma) (query : string)
    (k : option nat) : Run (list (Document * Q)) :=
  call (chroma_similarity_search true query k) ;;
  call (embed_query query) ;;
  ret (nearest (collection db) (embedding_of query) (default DEFAULT_K k)).

(** Modelled from the spec: the same query, returning the documents without
    their distances. *)
Definition similarity_search (db : Chroma) (query : string) (k : option nat)
  : Run (list Document) :=
  call (chroma_similarity_search false query k) ;;
  call (embed_query query) ;;
  ret ((nearest (collection db) (embedding_of query) (default DEFAULT_K k)).*1).

(** *** langchain.prompts, langchain.chat_models, langchain.chains.llm *)

Record PromptTemplate : Type := {
  template : string;
  input_variables : list string;
}.

Record ChatOpenAI : Type := {
  temperature : Q;
  chat_api_key : string;
}.

(** Modelled from the spec: the client of the chat-completion API, which
    reads the same credential as the embedding client. *)
Definition ChatOpenAI_new (temperature : Q) : Run ChatOpenAI :=
  call (environ_get OPENAI_API_KEY) ;;
  env <- read_environ ;;
  match env !! OPENAI_API_KEY with
  | Some key => ret {| temperature := temperature; chat_api_key := key |}
  | None => raise (ConfigurationError OPENAI_API_KEY)
  end.

Record LLMChain : Type := {
  llm : ChatOpenAI;
  prompt : PromptTemplate;
}.

(** Modelled from the spec: running a chain, which is library code and not
    part of the repository: "substitute [context] and [question] into a
    fixed prompt template string; send the filled prompt to a remote
    chat-completion API"; the notebook adds that the call returns "a dict
    with a [text] key containing the LLM response".  The substitution is
    that of [str.format]; how the library treats inputs other than the
    variables of the template, or a missing one, is not modelled: the cell
    passes exactly the two variables its template names. *)
Definition LLMChain_call (chain : LLMChain) (inputs : gmap string string)
  : Run (gmap string string) :=
  filled <- lift (format (template (prompt chain)) inputs) ;;
  call (chat_completion_create (temperature (llm chain)) filled) ;;
  ret (<[ "text" := chat_completion (temperature (llm chain)) filled ]> inputs).

(** [d[key]] *)
Definition getitem (d : gmap string string) (key : string) : Run string :=
  match d !! key with
  | Some v => ret v
  | None => raise (KeyError key)
  end.

End Libraries.

(** ** The cells of the notebook *)

Section Notebook.

Context `{Externals}.

(** Task 0: setup. *)
Definition task0 : Run unit :=
  call (pip_install "openai==0.27.1") ;;
  call (pip_install "langchain==0.0.191") ;;
  call (pip_install "chromadb==0.3.26") ;;
  call (pip_install "tiktoken==0.4.0").

(** Task 1: load data. *)
Definition task1 : Run (list Document) :=
  ReadTheDocsLoader_load "rtdocs/python.langchain.com/en/latest" "html.parser".

(** Task 2: slice the documents into smaller chunks. *)
Definition task2 (raw_documents : list Document) : Run (list Document) :=
  let text_splitter := {| chunk_size := 1000; chunk_overlap := 200 |} in
  split_documents text_splitter raw_documents.

(** Task 3: count tokens and get a cost estimate of embedding. *)
Definition doc_tokens (encoder : Encoding) (documents : list Document) : list N :=
  (fun d => len (Encoding_encode encoder (page_content d))) <$> documents.

Definition total_tokens (doc_tokens : list N) : N := sum doc_tokens.

(** [(sum(doc_tokens)/1000) * 0.0004] *)
Definition cost_estimate (doc_tokens : list N) : Result float :=
  map_result (fun thousands => float_mul thousands (float_literal (4 # 10000)))
    (int_true_divide (Z.of_N (sum doc_tokens)) 1000).

(** [f"{total_tokens} tokens, cost estimate: ${cost_estimate:.2f}"] *)
Definition cost_line (total_tokens : N) (cost_estimate : float) : string :=
  str_int total_tokens +:+ " tokens, cost estimate: $" +:+
  format_2f cost_estimate.

Definition task3 (documents : list Document) : Run unit :=
  encoder <- encoding_for_model "text-embedding-ada-002" ;;
  let doc_tokens := doc_tokens encoder documents in
  let total_tokens := total_tokens doc_tokens in
  cost_estimate <- lift (cost_estimate doc_tokens) ;;
  print (cost_line total_tokens cost_estimate).

(** Task 4: embed the documents and store embeddings in the vector database.
    The cell creates the embedding function; its two other statements,
    [db = Chroma.from_documents(...)] and [db.persist()], are commented out. *)
Definition task4 : Run OpenAIEmbeddings :=
  OpenAIEmbeddings_new.

(** Alternative: use the provided embeddings. *)
Definition alternative : Run Chroma :=
  embedding <- OpenAIEmbeddings_new ;;
  Chroma_new "chroma-data-langchain-docs" embedding.

(** Step 5: query the vector database. *)
Definition score_line (doc : Document) (score : Q) : string :=
  "Score: " +:+ float_repr score +:+ newline +:+ page_content doc +:+
  newline +:+ "----".

Definition step5 (db : Chroma) : Run unit :=
  results <- similarity_search_with_score db "how to load data from wikipedia?" None ;;
  for_each results (fun r => print (score_line r.1 r.2)).

(** Step 6: create a QA chain. *)
Definition question : string :=
  "how can I make a chain remember previous messages?".

Definition qa_template : string := Eval cbv in
  String "034"%char
    "Use the following pieces of context to answer the question at the end. If you don't know the answer, just say that you don't know, don't try to make up an answer."
  +:+ newline +:+ newline +:+ "<context>" +:+ newline +:+ "{context}" +:+ newline
  +:+ "</context>" +:+ newline +:+ newline +:+ "Question: {question}" +:+ newline
  +:+ "Helpful Answer:".

(** The cell, for the [question] it sets. *)
Definition step6 (db : Chroma) (question : string) : Run unit :=
  context_docs <- similarity_search db question None ;;
  let prompt :=
    {| template := qa_template; input_variables := ["context"; "question"] |} in
  llm <- ChatOpenAI_new 0 ;;
  let qa_chain := {| llm := llm; prompt := prompt |} in
  result <- LLMChain_call qa_chain
              {[ "context" := join newline (page_content <$> context_docs);
                 "question" := question ]} ;;
  text <- getitem result "text" ;;
  print text.

(** The notebook, top to bottom. *)
Definition notebook : Run unit :=
  task0 ;;
  raw_documents <- task1 ;;
  documents <- task2 raw_documents ;;
  task3 documents ;;
  embedding <- task4 ;;
  db <- alternative ;;
  step5 db ;;
  step6 db question.

(** The two ingestion statements of Task 4 as they read without the comment
    signs; no cell runs them. *)
Definition task4_ingestion (documents : list Document)
    (embedding : OpenAIEmbeddings) : Run Chroma :=
  db <- Chroma_from_documents documents embedding "my-embeddings" ;;
  Chroma_persist db ;;
  ret db.

End Notebook.

(** ** A small instance, for running the cells *)

Module Demo.

(** One token per character, one chunk per text, vectors of one number. *)
Definition externals : Externals := {|
  strip_html := fun _ html => html;
  split_text := fun _ _ text => [text];
  tiktoken_encode := fun _ text => (fun _ => 0) <$> String.list_ascii_of_string text;
  embedding_of := fun text => [inject_Z (Z.of_nat (String.length text))];
  distance := fun u v =>
    match u, v with
    | [a], [b] => Qabs (a - b)
    | _, _ => 0%Q
    end;
  DEFAULT_K := 4;
  chat_completion := fun _ prompt => "I don't know.";
  float_repr := fun q => format_2f (Finite q);
|}.

Definition entry (id text : string) : Entry :=
  {| entry_id := id; entry_vector := @embedding_of externals text;
     entry_text := text;
     entry_metadata := {[ "source" := id ]} |}.

Definition store : list Entry :=
  [ entry "0" "Delta Epsilon Zeta, and a good deal more text after that";
    entry "1" "Alpha Beta Gamma";
    entry "2" "how to load data from the wiki";
    entry "3" "chains and memory of the previous messages, in short";
    entry "4" "x";
    entry "5" "how can I make a chain remember previous things?" ].

Definition world (env : gmap string string) : World :=
  {| environ := env;
     html_files :=
       {[ "rtdocs/python.langchain.com/en/latest" :=
            [ ("index.html", "Alpha Beta Gamma"); ("api.html", "Delta Epsilon Zeta") ] ]};
     chroma_data := {[ "chroma-data-langchain-docs" := store ]};
     stdout := [];
     calls := [] |}.

Definition with_key : World := world {[ OPENAI_API_KEY := "sk-demo" ]}.

Definition without_key : World := world ∅.

End Demo.

(** ** The vocabulary of the properties *)

(** The exact, unrounded value of the formula of the specification:
    [(total_tokens / 1000) * price_per_1k_tokens]. *)
Definition exact_cost (total_tokens : N) (price_per_1k_tokens : Q) : Q :=
  ((inject_Z (Z.of_N total_tokens) / 1000) * price_per_1k_tokens)%Q.

(** The float that the literal [0.0004] denotes. *)
Definition price : Q := (7378697629483821 # 18446744073709551616)%Q.

(** The least token total whose division by 1000 does not fit a float. *)
Definition overflow_total : Z := 1000 * (2 ^ 1024 - 2 ^ 970).

(** The world after a piece of a run that made the calls [new_calls] and
    printed [printed]; nothing else changes as long as no store is written. *)
Definition after (w : World) (new_calls : list Call) (printed : list string)
  : World :=
  {| environ := environ w; html_files := html_files w;
     chroma_data := chroma_data w;
     stdout := stdout w ++ printed; calls := calls w ++ new_calls |}.

(** The pieces of the prompt template around its two fields. *)
Definition prompt_head : string := Eval cbv in
  String "034"%char
    "Use the following pieces of context to answer the question at the end. If you don't know the answer, just say that you don't know, don't try to make up an answer."
  +:+ newline +:+ newline +:+ "<context>" +:+ newline.

Definition prompt_middle : string := Eval cbv in
  newline +:+ "</context>" +:+ newline +:+ newline +:+ "Question: ".

Definition prompt_tail : string := Eval cbv in
  newline +:+ "Helpful Answer:".

(** Step (b) of the chat stage as the specification states it, "concatenate
    retrieved chunk texts with a separator": the first text, and after it,
    for each further text in turn, the separator and that text. *)
Definition separated (separator : string) (texts : list string) : string :=
  match texts with
  | [] => EmptyString
  | first :: others =>
      foldl (fun so_far text => so_far +:+ separator +:+ text) first others
  end.

(** The prompt that the template and the two inputs give. *)
Definition filled_prompt (context question : string) : string :=
  prompt_head +:+ context +:+ prompt_middle +:+ question +:+ prompt_tail.

Section Vocabulary.

Context `{Externals}.

(** The values that flow from cell to cell. *)
Definition raw_documents_of (w : World) : list Document :=
  (fun f : string * string =>
     {| page_content := strip_html "html.parser" f.2;
        metadata := {[ "source" := f.1 ]} |})
  <$> default [] (html_files w !! "rtdocs/python.langchain.com/en/latest").

Definition chunks_of (docs : list Document) : list Document :=
  d ← docs;
  (fun chunk => {| page_content := chunk; metadata := metadata d |})
  <$> split_text 1000 200 (page_content d).

Definition token_counts_of (documents : list Document) : list N :=
  doc_tokens {| model_name := "text-embedding-ada-002" |} documents.

Definition db_of (w : World) (key : string) : Chroma :=
  {| persist_directory := "chroma-data-langchain-docs";
     embedding_function := {| openai_api_key := key |};
     collection := default [] (chroma_data w !! "chroma-data-langchain-docs") |}.

Definition context_of (db : Chroma) (question : string) : string :=
  join newline
    (page_content <$> (nearest (collection db) (embedding_of question) DEFAULT_K).*1).

Definition answer_of (db : Chroma) (question : string) : string :=
  chat_completion 0 (filled_prompt (context_of db question) question).

(** The calls of Tasks 0 to 3, which need no credential. *)
Definition calls_of_preparation : list Call :=
  [ pip_install "openai==0.27.1"; pip_install "langchain==0.0.191";
    pip_install "chromadb==0.3.26"; pip_install "tiktoken==0.4.0";
    loader_load "rtdocs/python.langchain.com/en/latest" "html.parser";
    splitter_split_documents 1000 200;
    tiktoken_encoding_for_model "text-embedding-ada-002" ].

(** The calls from Task 4 to the end of the notebook. *)
Definition calls_of_retrieval (db : Chroma) : list Call :=
  [ environ_get OPENAI_API_KEY;
    environ_get OPENAI_API_KEY; chroma_open "chroma-data-langchain-docs";
    chroma_similarity_search true "how to load data from wikipedia?" None;
    embed_query "how to load data from wikipedia?";
    chroma_similarity_search false question None; embed_query question;
    environ_get OPENAI_API_KEY;
    chat_completion_create 0 (filled_prompt (context_of db question) question) ].

Definition score_lines (db : Chroma) : list string :=
  (fun r => score_line r.1 r.2)
  <$> nearest (collection db) (embedding_of "how to load data from wikipedia?")
        DEFAULT_K.

(** The stages that ran in a piece of a run, in order. *)
Definition stages (new_calls : list Call) : list Stage := stage_of <$> new_calls.

(** C8 as the specification states it: without the credential the notebook
    fails with a configuration error before any stage of the pipeline runs,
    that is, having done nothing but the setup and the look-up of the
    credential. *)
Definition fails_before_any_stage (w : World) : Prop :=
  exists new_calls printed,
    notebook w = (inl (ConfigurationError OPENAI_API_KEY), after w new_calls printed) /\
    Forall (fun s => s = Setup \/ s = Configuration) (stages new_calls).

End Vocabulary.

(** * Properties *)

(** ** The model of Python's arithmetic and strings on known values *)

Module MachineFloats.

Import PrimInt63 PrimFloat.

(** The rational a finite machine float denotes. *)
Definition Q_of_float (x : PrimFloat.float) : option Q :=
  match FloatOps.Prim2SF x with
  | SpecFloat.S754_zero _ => Some 0%Q
  | SpecFloat.S754_finite negative m e =>
      Some (Qred ((if negative then -1 else 1) * inject_Z (Zpos m) * Binary64.pow2 e))
  | _ => None
  end.

(** [round64] against the binary64 arithmetic of the machine, on the
    operations of the cost estimate. *)
#[warnings="-inexact-float"]
Example round64_agrees_with_machine_floats :
  Q_of_float 0.0004%float = Some (Binary64.round64 (4 # 10000)) /\
  Q_of_float (of_uint63 150000 / of_uint63 1000)%float
  = Some (Binary64.round64 (150000 / 1000)) /\
  Q_of_float (of_uint63 123457 / of_uint63 1000)%float
  = Some (Binary64.round64 (123457 / 1000)) /\
  Q_of_float (of_uint63 150000 / of_uint63 1000 * 0.0004)%float
  = Some (Binary64.round64
            (Binary64.round64 (150000 / 1000) * Binary64.round64 (4 # 10000))) /\
  Q_of_float (of_uint63 987654321 / of_uint63 1000 * 0.0004)%float
  = Some (Binary64.round64
            (Binary64.round64 (987654321 / 1000) * Binary64.round64 (4 # 10000))) /\
  Q_of_float 0.1%float = Some (3602879701896397 # 36028797018963968)%Q /\
  Binary64.round64 (1 # 10) = (3602879701896397 # 36028797018963968)%Q /\
  (* ties go to the even neighbour, also among the subnormal numbers *)
  Q_of_float (of_uint63 9007199254740993) = Some (Binary64.round64 9007199254740993) /\
  Q_of_float (of_uint63 9007199254740995) = Some (Binary64.round64 9007199254740995) /\
  Q_of_float (0x1p-1074 / 2)%float = Some (Binary64.round64 (Binary64.pow2 (-1075))) /\
  Q_of_float (0x3p-1074 / 2)%float = Some (Binary64.round64 (3 * Binary64.pow2 (-1075))) /\
  Q_of_float (0x1p-1074 / 3)%float = Some (Binary64.round64 (Binary64.pow2 (-1074) / 3)) /\
  Q_of_float (0x1.fffffffffffffp1023 / 3)%float
  = Some (Binary64.round64 ((Binary64.pow2 1024 - Binary64.pow2 971) / 3)).
Proof. vm_compute. repeat split; reflexivity. Qed.

End MachineFloats.

Example format_2f_examples :
  format_2f (Finite (8646911284551353 # 144115188075855872)) = "0.06" /\
  format_2f (Finite (1 # 8)) = "0.12" /\
  format_2f (Finite (3 # 8)) = "0.38" /\
  format_2f (Finite (1234567 # 1000)) = "1234.57" /\
  format_2f (Finite (- (1 # 1000))) = "-0.00" /\
  format_2f (Infinity false) = "inf".
Proof. vm_compute. repeat split; reflexivity. Qed.

Example format_examples :
  format "{a}-{b}" {[ "a" := "x"; "b" := "{a}" ]} = inr "x-{a}" /\
  format "{{a}}" ∅ = inr "{a}" /\
  format "{a}" ∅ = inl (KeyError "a") /\
  format "a}" ∅ = inl (ValueError "Single '}' encountered in format string") /\
  format "{a" {[ "a" := "x" ]} = inl (ValueError "expected '}' before end of string") /\
  format "a{" ∅ = inl (ValueError "Single '{' encountered in format string") /\
  format "{a{b}" ∅ = inl (ValueError "unexpected '{' in field name") /\
  join ", " ["a"; "b"; "c"] = "a, b, c" /\
  join ", " [] = EmptyString.
Proof. vm_compute. repeat split; reflexivity. Qed.

(** ** Rounding to binary64 *)

Section Binary64Facts.

Import Binary64.
Local Open Scope Q_scope.

Lemma rne_floor_or_succ x : rne x = Qfloor x \/ rne x = (Qfloor x + 1)%Z.
Proof.
  unfold rne. destruct (Qcompare _ _); [destruct (Z.even _) | ..]; auto.
Qed.

Lemma rne_inject n : rne (inject_Z n) = n.
Proof.
  unfold rne. rewrite Qfloor_Z.
  replace (Qcompare (inject_Z n - inject_Z n) (1 # 2)) with Lt; [reflexivity|].
  symmetry. apply (proj1 (Qlt_alt _ _)). lra.
Qed.

Lemma rne_mono x y : x <= y -> (rne x <= rne y)%Z.
Proof.
  intros Hxy.
  pose proof (Qfloor_resp_le _ _ Hxy) as Hf.
  destruct (Z.eq_dec (Qfloor x) (Qfloor y)) as [E|NE].
  - unfold rne. rewrite <- E.
    destruct (Qcompare (x - inject_Z (Qfloor x)) (1 # 2)) eqn:Cx;
    destruct (Qcompare (y - inject_Z (Qfloor x)) (1 # 2)) eqn:Cy;
      try destruct (Z.even (Qfloor x)); try lia;
      first [apply (proj2 (Qeq_alt _ _)) in Cx | apply (proj2 (Qlt_alt _ _)) in Cx
            | apply (proj2 (Qgt_alt _ _)) in Cx];
      first [apply (proj2 (Qeq_alt _ _)) in Cy | apply (proj2 (Qlt_alt _ _)) in Cy
            | apply (proj2 (Qgt_alt _ _)) in Cy];
      exfalso; lra.
  - destruct (rne_floor_or_succ x) as [-> | ->];
      destruct (rne_floor_or_succ y) as [-> | ->]; lia.
Qed.

Lemma rne_le_int x n : x <= inject_Z n -> (rne x <= n)%Z.
Proof. intros Hx. rewrite <- (rne_inject n). apply rne_mono, Hx. Qed.

Lemma rne_ge_int x n : inject_Z n <= x -> (n <= rne x)%Z.
Proof. intros Hx. rewrite <- (rne_inject n) at 1. apply rne_mono, Hx. Qed.

(** The nearest integer is at most one half away. *)
Lemma rne_error x : Qabs (inject_Z (rne x) - x) <= 1 # 2.
Proof.
  pose proof (Qfloor_le x) as Hlo. pose proof (Qlt_floor x) as Hhi.
  rewrite inject_Z_plus in Hhi. change (inject_Z 1) with 1 in Hhi.
  apply Qabs_Qle_condition. unfold rne.
  destruct (Qcompare (x - inject_Z (Qfloor x)) (1 # 2)) eqn:C;
    [ apply (proj2 (Qeq_alt _ _)) in C; destruct (Z.even (Qfloor x))
    | apply (proj2 (Qlt_alt _ _)) in C
    | apply (proj2 (Qgt_alt _ _)) in C ];
    rewrite ?inject_Z_plus; change (inject_Z 1) with 1; split; lra.
Qed.

Lemma pow2_pos e : 0 < pow2 e.
Proof. apply Qpower_0_lt. reflexivity. Qed.

Lemma pow2_add a b : pow2 (a + b) == pow2 a * pow2 b.
Proof. apply Qpower_plus. discriminate. Qed.

Lemma pow2_le a b : (a <= b)%Z -> pow2 a <= pow2 b.
Proof. intros Hab. apply Qpower_le_compat_l; [exact Hab | discriminate]. Qed.

Lemma pow2_lt_inv a b : pow2 a < pow2 b -> (a < b)%Z.
Proof.
  intros Hab. destruct (Z_lt_le_dec a b) as [L|G]; [exact L|].
  apply pow2_le in G. lra.
Qed.

Lemma pow2_inject e : (0 <= e)%Z -> pow2 e == inject_Z (2 ^ e).
Proof. intros He. unfold pow2. rewrite Zpower_Qpower by exact He. reflexivity. Qed.

Lemma Q_as_quotient (x : Q) : x == inject_Z (Qnum x) / inject_Z (Zpos (Qden x)).
Proof. destruct x as [a b]. simpl. apply Qmake_Qdiv. Qed.

(** [mag] brackets a positive number between two powers of two. *)
Lemma mag_bounds x : 0 < x -> pow2 (mag x - 1) <= x /\ x < pow2 (mag x).
Proof.
  intros Hx.
  assert (Ha : (0 < Qnum x)%Z).
  { destruct x as [a b]. unfold Qlt in Hx. simpl in *. lia. }
  assert (Habs : Qabs x == x) by (apply Qabs_pos; lra).
  set (la := Z.log2 (Qnum x)). set (lb := Z.log2 (Zpos (Qden x))).
  destruct (Z.log2_spec (Qnum x) Ha) as [Ha1 Ha2]. fold la in Ha1, Ha2.
  destruct (Z.log2_spec (Zpos (Qden x)) eq_refl) as [Hb1 Hb2]. fold lb in Hb1, Hb2.
  assert (Hla : (0 <= la)%Z) by apply Z.log2_nonneg.
  assert (Hlb : (0 <= lb)%Z) by apply Z.log2_nonneg.
  assert (Qa1 : pow2 la <= inject_Z (Qnum x)).
  { rewrite pow2_inject by lia. rewrite <- Zle_Qle. exact Ha1. }
  assert (Qa2 : inject_Z (Qnum x) < pow2 (la + 1)).
  { rewrite pow2_inject by lia. rewrite <- Zlt_Qlt.
    replace (la + 1)%Z with (Z.succ la) by lia. exact Ha2. }
  assert (Qb1 : pow2 lb <= inject_Z (Zpos (Qden x))).
  { rewrite pow2_inject by lia. rewrite <- Zle_Qle. exact Hb1. }
  assert (Qb2 : inject_Z (Zpos (Qden x)) < pow2 (lb + 1)).
  { rewrite pow2_inject by lia. rewrite <- Zlt_Qlt.
    replace (lb + 1)%Z with (Z.succ lb) by lia. exact Hb2. }
  assert (Hb0 : 0 < inject_Z (Zpos (Qden x))) by (rewrite <- (Zlt_Qlt 0); lia).
  assert (Hup : x < pow2 (la - lb + 1)).
  { rewrite (Q_as_quotient x) at 1. apply Qlt_shift_div_r; [exact Hb0|].
    eapply Qlt_le_trans; [exact Qa2|].
    replace (la + 1)%Z with ((la - lb + 1) + lb)%Z by lia. rewrite pow2_add.
    apply Qmult_le_l; [apply pow2_pos | exact Qb1]. }
  assert (Hlo : pow2 (la - lb - 1) < x).
  { rewrite (Q_as_quotient x) at 1. apply Qlt_shift_div_l; [exact Hb0|].
    eapply Qlt_le_trans; [|exact Qa1].
    replace la with ((la - lb - 1) + (lb + 1))%Z at 2 by lia. rewrite pow2_add.
    apply Qmult_lt_l; [apply pow2_pos | exact Qb2]. }
  unfold mag. rewrite Z.abs_eq by lia. fold la lb.
  destruct (Qle_bool (pow2 (la - lb)) (Qabs x)) eqn:C.
  - apply Qle_bool_iff in C. rewrite Habs in C.
    replace (la - lb + 1 - 1)%Z with (la - lb)%Z by lia. split; [exact C | exact Hup].
  - assert (C' : ~ pow2 (la - lb) <= Qabs x).
    { intros Hle. apply Qle_bool_iff in Hle. congruence. }
    rewrite Habs in C'. apply Qnot_le_lt in C'.
    split; [apply Qlt_le_weak; exact Hlo | exact C'].
Qed.

Lemma mag_mono x y : 0 < x -> x <= y -> (mag x <= mag y)%Z.
Proof.
  intros Hx Hxy.
  destruct (mag_bounds x Hx) as [Lx _].
  destruct (mag_bounds y) as [_ Uy]; [lra|].
  assert (Hlt : (mag x - 1 < mag y)%Z) by (apply pow2_lt_inv; lra).
  lia.
Qed.

Lemma mag_le x k : 0 < x -> x < pow2 k -> (mag x <= k)%Z.
Proof.
  intros Hx Hk. destruct (mag_bounds x Hx) as [Lx _].
  assert (Hlt : (mag x - 1 < k)%Z) by (apply pow2_lt_inv; lra).
  lia.
Qed.

Lemma mag_gt x k : pow2 k <= x -> (k < mag x)%Z.
Proof.
  intros Hk. pose proof (pow2_pos k) as Hp.
  destruct (mag_bounds x) as [_ Ux]; [lra|].
  apply pow2_lt_inv. lra.
Qed.

Lemma cexp_mono x y : 0 < x -> x <= y -> (cexp x <= cexp y)%Z.
Proof. intros Hx Hxy. pose proof (mag_mono x y Hx Hxy). unfold cexp. lia. Qed.

Lemma round64_eq x :
  round64 x == inject_Z (rne (x / pow2 (cexp x))) * pow2 (cexp x).
Proof. unfold round64. apply Qred_correct. Qed.

Lemma round64_nonneg x : 0 <= x -> 0 <= round64 x.
Proof.
  intros Hx. rewrite round64_eq.
  apply Qmult_le_0_compat; [|apply Qlt_le_weak, pow2_pos].
  rewrite <- (Zle_Qle 0). apply rne_ge_int.
  apply Qle_shift_div_l; [apply pow2_pos | change (inject_Z 0) with 0; lra].
Qed.

Lemma round64_zero x : x == 0 -> round64 x == 0.
Proof.
  intros Hx. rewrite round64_eq.
  assert (rne (x / pow2 (cexp x)) = 0%Z) as ->.
  { apply Z.le_antisymm.
    - apply rne_le_int. apply Qle_shift_div_r; [apply pow2_pos|].
      change (inject_Z 0) with 0. lra.
    - apply rne_ge_int. apply Qle_shift_div_l; [apply pow2_pos|].
      change (inject_Z 0) with 0. lra. }
  change (inject_Z 0) with 0. lra.
Qed.

Lemma pow2_on_grid k e :
  (e <= k)%Z -> pow2 k == inject_Z (2 ^ (k - e)) * pow2 e.
Proof.
  intros Hek. rewrite <- pow2_inject by lia. rewrite <- pow2_add.
  replace (k - e + e)%Z with k by lia. reflexivity.
Qed.

(** Rounding does not cross a power of two that lies on the grid of [x]. *)
Lemma round64_le_pow2 x k :
  x <= pow2 k -> (cexp x <= k)%Z -> round64 x <= pow2 k.
Proof.
  intros Hk Hc. rewrite round64_eq.
  rewrite (pow2_on_grid k (cexp x) Hc). apply Qmult_le_r; [apply pow2_pos|].
  rewrite <- Zle_Qle. apply rne_le_int.
  apply Qle_shift_div_r; [apply pow2_pos|].
  rewrite <- (pow2_on_grid k (cexp x) Hc). exact Hk.
Qed.

Lemma round64_ge_pow2 x k :
  pow2 k <= x -> (cexp x <= k)%Z -> pow2 k <= round64 x.
Proof.
  intros Hk Hc. rewrite round64_eq.
  rewrite (pow2_on_grid k (cexp x) Hc). apply Qmult_le_r; [apply pow2_pos|].
  rewrite <- Zle_Qle. apply rne_ge_int.
  apply Qle_shift_div_l; [apply pow2_pos|].
  rewrite <- (pow2_on_grid k (cexp x) Hc). exact Hk.
Qed.

(** Rounding to nearest is monotone. *)
Lemma round64_mono x y : 0 <= x -> x <= y -> round64 x <= round64 y.
Proof.
  intros Hx Hxy.
  destruct (Qlt_le_dec 0 x) as [Px|Zx].
  2:{ rewrite (round64_zero x) by lra. apply round64_nonneg. lra. }
  pose proof (cexp_mono x y Px Hxy) as Hc.
  destruct (Z.eq_dec (cexp x) (cexp y)) as [E|NE].
  - rewrite (round64_eq x), (round64_eq y). rewrite <- E.
    apply Qmult_le_r; [apply pow2_pos|].
    rewrite <- Zle_Qle. apply rne_mono.
    apply Qmult_le_r; [apply Qinv_lt_0_compat, pow2_pos | exact Hxy].
  - assert (Py : 0 < y) by lra.
    destruct (mag_bounds x Px) as [_ Ux].
    destruct (mag_bounds y Py) as [Ly _].
    pose proof (mag_mono x y Px Hxy) as Hm.
    assert (Hmm : (mag x < mag y)%Z) by (unfold cexp in *; lia).
    apply Qle_trans with (pow2 (mag y - 1)).
    + apply round64_le_pow2; [|unfold cexp, prec, emin in *; lia].
      apply Qle_trans with (pow2 (mag x)); [lra | apply pow2_le; lia].
    + apply round64_ge_pow2; [exact Ly | unfold cexp, prec, emin in *; lia].
Qed.

(** In the normal range the relative error of a rounding is at most [u]. *)
Lemma round64_relative x :
  pow2 (emin + prec - 1) <= x ->
  (1 - u) * x <= round64 x /\ round64 x <= (1 + u) * x.
Proof.
  intros Hx. pose proof (pow2_pos (emin + prec - 1)) as Hp.
  assert (Px : 0 < x) by lra.
  pose proof (mag_gt x _ Hx) as Hm.
  destruct (mag_bounds x Px) as [Lx _].
  assert (Hc : cexp x = (mag x - prec)%Z) by (unfold cexp; lia).
  pose proof (rne_error (x / pow2 (cexp x))) as He.
  apply Qabs_Qle_condition in He.
  pose proof (pow2_pos (cexp x)) as Hpe.
  assert (Hx' : x == (x / pow2 (cexp x)) * pow2 (cexp x)).
  { field. lra. }
  assert (Hu : pow2 (cexp x) * (1 # 2) <= u * x).
  { apply Qle_trans with (u * pow2 (mag x - 1)).
    - unfold u. rewrite <- pow2_add. rewrite Hc.
      replace (mag x - prec)%Z with ((- prec + (mag x - 1)) + 1)%Z by lia.
      rewrite (pow2_add (- prec + (mag x - 1)) 1).
      change (pow2 1) with 2. lra.
    - apply Qmult_le_l; [apply pow2_pos | exact Lx]. }
  rewrite round64_eq.
  set (z := x / pow2 (cexp x)) in *. set (n := inject_Z (rne z)) in *.
  set (p := pow2 (cexp x)) in *.
  assert (H1 : (z - (1 # 2)) * p <= n * p).
  { apply Qmult_le_r; [exact Hpe | lra]. }
  assert (H2 : n * p <= (z + (1 # 2)) * p).
  { apply Qmult_le_r; [exact Hpe | lra]. }
  split; lra.
Qed.

End Binary64Facts.

(** ** Task 3: the cost estimate *)

Section CostFacts.

Import Binary64.
Local Open Scope Q_scope.

Lemma price_literal : round64 (4 # 10000) = price.
Proof. vm_compute. reflexivity. Qed.

Lemma finite_true r : 0 <= r -> r < pow2 emax -> finite r = true.
Proof.
  intros Hr Hlt. unfold finite.
  destruct (Qle_bool (pow2 emax) (Qabs r)) eqn:C; [|reflexivity].
  apply Qle_bool_iff in C. rewrite Qabs_pos in C by exact Hr. lra.
Qed.

Lemma finite_bound r : 0 <= r -> finite r = true -> r < pow2 emax.
Proof.
  intros Hr Hf. unfold finite in Hf.
  apply Qnot_le_lt. intros Hle.
  assert (C : Qle_bool (pow2 emax) (Qabs r) = true).
  { apply Qle_bool_iff. rewrite Qabs_pos by exact Hr. exact Hle. }
  rewrite C in Hf. discriminate.
Qed.

(** A product with the price never overflows. *)
Lemma times_price_finite x :
  0 <= x -> x < pow2 emax -> finite (round64 (x * price)) = true.
Proof.
  intros Hx Hlt.
  assert (Hp : 0 <= x * price) by (unfold price; lra).
  apply finite_true; [apply round64_nonneg, Hp|].
  apply Qle_lt_trans with (pow2 (emax - 1)).
  2:{ change (pow2 emax) with (pow2 (emax - 1 + 1)). rewrite pow2_add.
      pose proof (pow2_pos (emax - 1)). change (pow2 1) with 2. lra. }
  destruct (Qlt_le_dec 0 (x * price)) as [Pos|Zero].
  - assert (Hhalf : x * price < pow2 (emax - 1)).
    { change (pow2 emax) with (pow2 (emax - 1 + 1)) in Hlt. rewrite pow2_add in Hlt.
      change (pow2 1) with 2 in Hlt. unfold price. lra. }
    apply round64_le_pow2; [lra|].
    pose proof (mag_le _ _ Pos Hhalf). unfold cexp, prec, emin, emax in *. lia.
  - rewrite (round64_zero (x * price)) by lra. apply Qlt_le_weak, pow2_pos.
Qed.

Lemma thousands_nonneg (n : N) : 0 <= inject_Z (Z.of_N n) / inject_Z 1000.
Proof.
  apply Qle_shift_div_l; [reflexivity|].
  change (0 * inject_Z 1000) with (inject_Z 0). rewrite <- Zle_Qle. lia.
Qed.

Lemma thousands_mono (n m : N) :
  (n <= m)%N ->
  inject_Z (Z.of_N n) / inject_Z 1000 <= inject_Z (Z.of_N m) / inject_Z 1000.
Proof.
  intros Hnm. apply Qmult_le_r; [reflexivity|]. rewrite <- Zle_Qle. lia.
Qed.

(** The formula of the cell, operation by operation. *)
Lemma cost_estimate_unfold (tokens : list N) :
  let thousands := round64 (inject_Z (Z.of_N (sum tokens)) / inject_Z 1000) in
  cost_estimate tokens =
  if finite thousands then inr (Finite (round64 (thousands * price)))
  else inl OverflowError.
Proof.
  intros thousands. unfold cost_estimate, int_true_divide, float_literal.
  change (1000 =? 0)%Z with false. cbv iota. fold thousands.
  rewrite price_literal.
  destruct (finite thousands) eqn:F; [|reflexivity].
  cbn [map_result float_mul].
  rewrite times_price_finite; [reflexivity | apply round64_nonneg, thousands_nonneg |].
  apply finite_bound; [apply round64_nonneg, thousands_nonneg | exact F].
Qed.

Lemma cost_estimate_accurate (tokens : list N) (q : Q) :
  cost_estimate tokens = inr (Finite q) ->
  Qabs (q - exact_cost (sum tokens) (4 # 10000))
  <= exact_cost (sum tokens) (4 # 10000) * pow2 (-51).
Proof.
  rewrite cost_estimate_unfold. cbv zeta.
  set (T := inject_Z (Z.of_N (sum tokens)) / inject_Z 1000).
  destruct (finite (round64 T)); [|discriminate].
  intros [= <-]. unfold exact_cost. change (inject_Z _ / 1000) with T.
  change (pow2 (-51)) with (1 # 2251799813685248).
  pose proof (thousands_nonneg (sum tokens)) as HT. fold T in HT.
  apply Qabs_Qle_condition.
  destruct (N.eq_dec (sum tokens) 0%N) as [Z0|NZ].
  - assert (HT0 : T == 0) by (unfold T; rewrite Z0; reflexivity).
    pose proof (round64_zero T HT0) as Hth.
    assert (Hq : round64 (round64 T * price) == 0).
    { apply round64_zero. rewrite Hth. reflexivity. }
    rewrite Hq, HT0. split; lra.
  - assert (HT1 : 1 # 1000 <= T).
    { unfold T. apply Qle_shift_div_l; [reflexivity|].
      apply Qle_trans with (inject_Z 1); [vm_compute; discriminate|].
      rewrite <- Zle_Qle. lia. }
    destruct (round64_relative T) as [Lth Uth].
    { eapply Qle_trans; [|exact HT1]. vm_compute. discriminate. }
    unfold u in Lth, Uth. change (pow2 (- prec)) with (1 # 9007199254740992) in Lth, Uth.
    set (th := round64 T) in *.
    destruct (round64_relative (th * price)) as [Lq Uq].
    { apply Qle_trans with ((1 # 2048) * price); [vm_compute; discriminate|].
      unfold price. lra. }
    unfold u in Lq, Uq. change (pow2 (- prec)) with (1 # 9007199254740992) in Lq, Uq.
    set (q := round64 (th * price)) in *.
    unfold price in *. split; lra.
Qed.

Lemma cost_estimate_defined (tokens : list N) :
  (Z.of_N (sum tokens) <= 10 ^ 300)%Z ->
  exists q, cost_estimate tokens = inr (Finite q).
Proof.
  intros Hn. rewrite cost_estimate_unfold. cbv zeta.
  set (T := inject_Z (Z.of_N (sum tokens)) / inject_Z 1000).
  pose proof (thousands_nonneg (sum tokens)) as HT. fold T in HT.
  assert (HT' : T < pow2 1000).
  { apply Qle_lt_trans with (inject_Z (10 ^ 300) / inject_Z 1000).
    - apply Qmult_le_r; [reflexivity|]. rewrite <- Zle_Qle. exact Hn.
    - vm_compute. reflexivity. }
  rewrite finite_true; [eauto | apply round64_nonneg, HT |].
  apply Qle_lt_trans with (pow2 1000); [|vm_compute; reflexivity].
  destruct (Qlt_le_dec 0 T) as [Pos|Zero].
  - apply round64_le_pow2; [lra|].
    pose proof (mag_le _ _ Pos HT'). unfold cexp, prec, emin in *. lia.
  - rewrite (round64_zero T) by lra. apply Qlt_le_weak, pow2_pos.
Qed.

Lemma cost_estimate_mono (tokens tokens' : list N) (q q' : Q) :
  (sum tokens <= sum tokens')%N ->
  cost_estimate tokens = inr (Finite q) ->
  cost_estimate tokens' = inr (Finite q') ->
  q <= q'.
Proof.
  intros Hle. rewrite !cost_estimate_unfold. cbv zeta.
  destruct (finite _); [|discriminate]. intros [= <-].
  destruct (finite _); [|discriminate]. intros [= <-].
  pose proof (thousands_nonneg (sum tokens)) as HT.
  pose proof (thousands_mono _ _ Hle) as HTT.
  pose proof (round64_nonneg _ HT) as Hth.
  pose proof (round64_mono _ _ HT HTT) as Hmono.
  apply round64_mono; unfold price; lra.
Qed.

Lemma finite_false r : pow2 emax <= r -> finite r = false.
Proof.
  intros Hr. unfold finite.
  assert (C : Qle_bool (pow2 emax) (Qabs r) = true).
  { apply Qle_bool_iff. pose proof (pow2_pos emax). rewrite Qabs_pos by lra. exact Hr. }
  by rewrite C.
Qed.

(** The division by 1000 fits a float exactly below [overflow_total]. *)
Lemma thousands_finite (n : N) :
  finite (round64 (inject_Z (Z.of_N n) / inject_Z 1000)) = true
  <-> (Z.of_N n < overflow_total)%Z.
Proof.
  pose proof (thousands_nonneg n) as HT.
  split.
  - intros Hfin. destruct (Z_lt_le_dec (Z.of_N n) overflow_total) as [|Hge]; [done|].
    exfalso.
    assert (Hle : (Z.to_N overflow_total <= n)%N) by lia.
    pose proof (round64_mono _ _ (thousands_nonneg _) (thousands_mono _ _ Hle)) as Hmono.
    rewrite finite_false in Hfin; [discriminate|].
    eapply Qle_trans; [|exact Hmono]. vm_compute. discriminate.
  - intros Hlt.
    assert (Hle : (n <= Z.to_N (overflow_total - 1))%N).
    { assert (0 < overflow_total)%Z by (vm_compute; reflexivity). lia. }
    pose proof (round64_mono _ _ HT (thousands_mono _ _ Hle)) as Hmono.
    apply finite_true; [apply round64_nonneg, HT|].
    eapply Qle_lt_trans; [exact Hmono|]. vm_compute. reflexivity.
Qed.

End CostFacts.

(** ** Running cells *)

Section Running.

Local Open Scope run_scope.

Lemma after_nothing w : after w [] [] = w.
Proof. destruct w. unfold after. simpl. by rewrite !app_nil_r. Qed.

Lemma after_after w cs out cs' out' :
  after (after w cs out) cs' out' = after w (cs ++ cs') (out ++ out').
Proof. unfold after. simpl. by rewrite !app_assoc. Qed.

Lemma call_run c w : call c w = (inr tt, after w [c] []).
Proof. unfold call, after. by rewrite app_nil_r. Qed.

Lemma print_run s w : print s w = (inr tt, after w [] [s]).
Proof. unfold print, after. by rewrite app_nil_r. Qed.

Lemma for_each_print_run {A : Type} (l : list A) (line : A -> string) w :
  for_each l (fun x => print (line x)) w = (inr tt, after w [] (line <$> l)).
Proof.
  revert w. induction l as [|x l IH]; intros w; simpl.
  - unfold ret. by rewrite after_nothing.
  - unfold bind. rewrite print_run, IH, after_after. reflexivity.
Qed.

End Running.

(** ** Step 6: the prompt *)

Lemma string_length_app (a b : string) :
  String.length (a +:+ b) = String.length a + String.length b.
Proof.
  induction a as [|c a IH]; [reflexivity|].
  change (String c a +:+ b) with (String c (a +:+ b)). simpl. by rewrite IH.
Qed.

Lemma string_app_assoc (a b c : string) : (a +:+ b) +:+ c = a +:+ (b +:+ c).
Proof.
  induction a as [|x a IH]; [reflexivity|].
  change ((String x a +:+ b) +:+ c) with (String x ((a +:+ b) +:+ c)).
  change (String x a +:+ (b +:+ c)) with (String x (a +:+ (b +:+ c))).
  by rewrite IH.
Qed.

(** [sep.join] puts the separator between two texts and nowhere else. *)
Lemma join_separated (sep : string) (texts : list string) :
  join sep texts = separated sep texts.
Proof.
  destruct texts as [|first others]; [reflexivity|].
  unfold separated. revert first.
  induction others as [|text others IH]; intros first; [reflexivity|].
  change (join sep (first :: text :: others))
    with (first +:+ sep +:+ join sep (text :: others)).
  rewrite (IH text). simpl foldl. rewrite <- (IH (first +:+ sep +:+ text)).
  destruct others as [|text' others]; [reflexivity|].
  change (join sep ((first +:+ sep +:+ text) :: text' :: others))
    with ((first +:+ sep +:+ text) +:+ sep +:+ join sep (text' :: others)).
  rewrite <- (IH text).
  change (join sep (text :: text' :: others))
    with (text +:+ sep +:+ join sep (text' :: others)).
  by rewrite !string_app_assoc.
Qed.

Lemma format_qa_template (kwargs : gmap string string) (context question : string) :
  kwargs !! "context" = Some context ->
  kwargs !! "question" = Some question ->
  format qa_template kwargs = inr (filled_prompt context question).
Proof.
  intros Hc Hq. unfold format, qa_template.
  cbn -[lookup]. rewrite Hc. cbn -[lookup]. rewrite Hq. cbn -[lookup].
  reflexivity.
Qed.

(** ** The cells, run *)

Section Cells.

Context `{Externals}.

Local Open Scope run_scope.

Ltac run :=
  unfold bind, call, print, ret, raise, lift, read_environ, read_html_files,
    read_chroma_data, after;
  simpl; rewrite <- ?app_assoc, ?app_nil_r; simpl.

Lemma task0_run w :
  task0 w =
  (inr tt,
   after w [pip_install "openai==0.27.1"; pip_install "langchain==0.0.191";
            pip_install "chromadb==0.3.26"; pip_install "tiktoken==0.4.0"] []).
Proof. unfold task0. run. reflexivity. Qed.

Lemma task1_run w :
  task1 w =
  (inr (raw_documents_of w),
   after w [loader_load "rtdocs/python.langchain.com/en/latest" "html.parser"] []).
Proof. unfold task1, ReadTheDocsLoader_load. run. reflexivity. Qed.

Lemma task2_run raw_documents w :
  task2 raw_documents w =
  (inr (chunks_of raw_documents), after w [splitter_split_documents 1000 200] []).
Proof. unfold task2, split_documents. run. reflexivity. Qed.

Lemma task3_run documents w :
  task3 documents w =
  match cost_estimate (token_counts_of documents) with
  | inl e =>
      (inl e, after w [tiktoken_encoding_for_model "text-embedding-ada-002"] [])
  | inr cost =>
      (inr tt,
       after w [tiktoken_encoding_for_model "text-embedding-ada-002"]
         [cost_line (total_tokens (token_counts_of documents)) cost])
  end.
Proof.
  unfold task3, encoding_for_model, token_counts_of. run.
  destruct (cost_estimate _); simpl; rewrite ?app_nil_r; reflexivity.
Qed.

Lemma OpenAIEmbeddings_new_run w :
  OpenAIEmbeddings_new w =
  (match environ w !! OPENAI_API_KEY with
   | Some key => inr {| openai_api_key := key |}
   | None => inl (ConfigurationError OPENAI_API_KEY)
   end,
   after w [environ_get OPENAI_API_KEY] []).
Proof.
  unfold OpenAIEmbeddings_new. run.
  destruct (environ w !! OPENAI_API_KEY); reflexivity.
Qed.

Lemma ChatOpenAI_new_run temperature w :
  ChatOpenAI_new temperature w =
  (match environ w !! OPENAI_API_KEY with
   | Some key => inr {| temperature := temperature; chat_api_key := key |}
   | None => inl (ConfigurationError OPENAI_API_KEY)
   end,
   after w [environ_get OPENAI_API_KEY] []).
Proof.
  unfold ChatOpenAI_new. run.
  destruct (environ w !! OPENAI_API_KEY); reflexivity.
Qed.

Lemma alternative_run w key :
  environ w !! OPENAI_API_KEY = Some key ->
  alternative w =
  (inr (db_of w key),
   after w [environ_get OPENAI_API_KEY; chroma_open "chroma-data-langchain-docs"] []).
Proof.
  intros Hkey. unfold alternative, bind. rewrite OpenAIEmbeddings_new_run, Hkey.
  unfold Chroma_new. run. reflexivity.
Qed.

Lemma step5_run db w :
  step5 db w =
  (inr tt,
   after w [chroma_similarity_search true "how to load data from wikipedia?" None;
            embed_query "how to load data from wikipedia?"]
     ((fun r => score_line r.1 r.2)
      <$> nearest (collection db)
            (embedding_of "how to load data from wikipedia?") DEFAULT_K)).
Proof.
  unfold step5, similarity_search_with_score. unfold bind at 1. unfold bind at 1.
  rewrite call_run. unfold bind at 1. rewrite call_run. unfold ret.
  rewrite for_each_print_run, !after_after. reflexivity.
Qed.

Lemma step6_run db question w key :
  environ w !! OPENAI_API_KEY = Some key ->
  step6 db question w =
  (inr tt,
   after w [chroma_similarity_search false question None; embed_query question;
            environ_get OPENAI_API_KEY;
            chat_completion_create 0
              (filled_prompt (context_of db question) question)]
     [answer_of db question]).
Proof.
  intros Hkey. unfold step6, similarity_search.
  unfold bind at 1. unfold bind at 1. rewrite call_run.
  unfold bind at 1. rewrite call_run. unfold ret.
  unfold bind at 1. rewrite ChatOpenAI_new_run. simpl environ. rewrite Hkey.
  unfold LLMChain_call. cbn [llm prompt template temperature].
  unfold bind at 1. unfold bind at 1. unfold lift.
  rewrite (format_qa_template _ (context_of db question) question).
  2:{ apply lookup_insert_eq. }
  2:{ rewrite lookup_insert_ne by discriminate. apply lookup_singleton_eq. }
  unfold bind at 1. rewrite call_run. unfold ret.
  unfold bind at 1. unfold getitem. rewrite lookup_insert_eq.
  unfold ret. cbv beta iota.
  rewrite print_run, !after_after. reflexivity.
Qed.

End Cells.

(** *** Task 3: the cost estimate of the cell *)

Section CostEstimate.

Context `{Externals}.

Import Binary64.
Local Open Scope Q_scope.

(** C1: for every list of chunks, the cost estimate of the token-counting
    cell is [(total_tokens / 1000) * 0.0004], where [total_tokens] is the sum
    of the token counts of the chunks.  The cell evaluates the formula in
    float arithmetic and prints the result to two decimals; the result is
    within a relative error of 2^-51 of the exact value and is defined on
    any total up to 10^300.  For a total of 150,000 tokens the exact value
    is 0.06 and the cell prints an estimate of $0.06.  The estimate is
    non-decreasing in the total. *)
Theorem cost_estimate_correct (documents : list Document) :
  let tokens := token_counts_of documents in
  let total := total_tokens tokens in
  let thousands := round64 (inject_Z (Z.of_N total) / inject_Z 1000) in
  total =
    foldr (fun d acc =>
             (len (tiktoken_encode "text-embedding-ada-002" (page_content d))
              + acc)%N) 0%N documents
  /\ (cost_estimate tokens =
        if finite thousands
        then inr (Finite (round64 (thousands * round64 (4 # 10000))))
        else inl OverflowError)
  /\ (forall w cost,
        cost_estimate tokens = inr cost ->
        task3 documents w =
        (inr tt,
         after w [tiktoken_encoding_for_model "text-embedding-ada-002"]
           [cost_line total cost]))
  /\ (forall q, cost_estimate tokens = inr (Finite q) ->
        Qabs (q - exact_cost total (4 # 10000))
        <= exact_cost total (4 # 10000) * pow2 (-51))
  /\ ((Z.of_N total <= 10 ^ 300)%Z ->
        exists q, cost_estimate tokens = inr (Finite q))
  /\ (total = 150000%N ->
        exact_cost total (4 # 10000) == 6 # 100 /\
        exists q, cost_estimate tokens = inr (Finite q) /\
          cost_line total (Finite q) = "150000 tokens, cost estimate: $0.06")
  /\ (forall documents' q q',
        (total <= total_tokens (token_counts_of documents'))%N ->
        cost_estimate tokens = inr (Finite q) ->
        cost_estimate (token_counts_of documents') = inr (Finite q') ->
        q <= q').
Proof.
  intros tokens total thousands. unfold total_tokens in total.
  subst total thousands.
  split; [|split; [|split; [|split; [|split; [|split]]]]].
  - unfold tokens, token_counts_of, doc_tokens, sum. by rewrite foldr_fmap.
  - rewrite price_literal. apply cost_estimate_unfold.
  - intros w cost Hcost. rewrite task3_run. fold tokens. by rewrite Hcost.
  - apply cost_estimate_accurate.
  - apply cost_estimate_defined.
  - intros Htotal. split.
    + rewrite Htotal. vm_compute. reflexivity.
    + rewrite cost_estimate_unfold. cbv zeta. rewrite Htotal.
      eexists. split; vm_compute; reflexivity.
  - intros documents' q q'. apply cost_estimate_mono.
Qed.

End CostEstimate.

Lemma cost_estimate_correct_witness :
  let H := Demo.externals in
  let chunk n := {| page_content := N.iter n (String "a") EmptyString;
                    metadata := ∅ |} in
  let documents := [chunk 100000%N; chunk 50000%N] in
  let documents' := [chunk 100000%N; chunk 50001%N] in
  total_tokens (token_counts_of documents) = 150000%N /\
  exists q q' : Q,
    cost_estimate (token_counts_of documents) = inr (Finite q) /\
    cost_estimate (token_counts_of documents') = inr (Finite q') /\
    task3 documents Demo.with_key =
    (inr tt,
     after Demo.with_key [tiktoken_encoding_for_model "text-embedding-ada-002"]
       ["150000 tokens, cost estimate: $0.06"]) /\
    (q <= q')%Q.
Proof.
  intros H chunk documents documents'.
  assert (Htotal : total_tokens (token_counts_of documents) = 150000%N)
    by (vm_compute; reflexivity).
  split; [exact Htotal|].
  pose proof (cost_estimate_correct documents)
    as (_ & _ & Hcell & _ & _ & H150 & Hmono).
  pose proof (cost_estimate_correct documents') as (_ & _ & _ & _ & Hdef & _).
  destruct (H150 Htotal) as (_ & q & Hq & Hline).
  destruct (Hdef ltac:(vm_compute; discriminate)) as (q' & Hq').
  exists q, q'. split; [exact Hq|]. split; [exact Hq'|]. split.
  - rewrite (Hcell Demo.with_key (Finite q) Hq). rewrite Htotal in Hline.
    rewrite Htotal. by rewrite Hline.
  - apply (Hmono documents' q q'); [vm_compute; discriminate | exact Hq | exact Hq'].
Defined.

(** ** The notebook, run *)

Section NotebookRun.

Context `{Externals}.

Local Open Scope run_scope.

(** The three ways a run of the notebook can end. *)
Lemma notebook_run w :
  let tokens := token_counts_of (chunks_of (raw_documents_of w)) in
  notebook w =
  match cost_estimate tokens with
  | inl e => (inl e, after w calls_of_preparation [])
  | inr cost =>
      match environ w !! OPENAI_API_KEY with
      | None =>
          (inl (ConfigurationError OPENAI_API_KEY),
           after w (calls_of_preparation ++ [environ_get OPENAI_API_KEY])
             [cost_line (total_tokens tokens) cost])
      | Some key =>
          (inr tt,
           after w (calls_of_preparation ++ calls_of_retrieval (db_of w key))
             (cost_line (total_tokens tokens) cost
              :: score_lines (db_of w key) ++ [answer_of (db_of w key) question]))
      end
  end.
Proof.
  intros tokens. unfold notebook.
  unfold bind at 1. rewrite task0_run.
  unfold bind at 1. rewrite task1_run.
  unfold bind at 1. rewrite task2_run.
  unfold bind at 1. rewrite task3_run.
  change (raw_documents_of (after _ _ _)) with (raw_documents_of w). fold tokens.
  destruct (cost_estimate tokens) as [e|cost].
  { rewrite !after_after. reflexivity. }
  unfold bind at 1. unfold task4. rewrite OpenAIEmbeddings_new_run.
  change (environ (after _ _ _)) with (environ w).
  destruct (environ w !! OPENAI_API_KEY) as [key|] eqn:Hkey.
  2:{ rewrite !after_after. reflexivity. }
  unfold bind at 1. rewrite (alternative_run _ key) by exact Hkey.
  unfold bind at 1. rewrite step5_run.
  rewrite (step6_run _ _ _ key) by exact Hkey.
  rewrite !after_after.
  change (db_of (after _ _ _) key) with (db_of w key).
  reflexivity.
Qed.

Lemma cost_estimate_raises tokens e :
  cost_estimate tokens = inl e -> e = OverflowError.
Proof.
  rewrite cost_estimate_unfold. cbv zeta.
  destruct (Binary64.finite _); [discriminate|]. by intros [= <-].
Qed.


(** *** Step 6: retrieval-augmented chat *)

(** C6: for every question, the chat cell queries the store with the
    question, concatenates the page contents of the retrieved chunks with a
    newline as the separator, substitutes the result for [{context}] and the
    question for [{question}] in the fixed template, sends the filled prompt
    to the chat model at temperature 0, and prints the text of the response;
    it makes these calls in this order and no other. *)
Theorem chat_stage_steps (db : Chroma) (question : string) (w : World) (key : string) :
  environ w !! OPENAI_API_KEY = Some key ->
  let context_docs :=
    (nearest (collection db) (embedding_of question) DEFAULT_K).*1 in
  let context := separated newline (page_content <$> context_docs) in
  let filled :=
    prompt_head +:+ context +:+ prompt_middle +:+ question +:+ prompt_tail in
  qa_template =
    prompt_head +:+ "{context}" +:+ prompt_middle +:+ "{question}" +:+ prompt_tail
  /\ format qa_template {[ "context" := context; "question" := question ]}
     = inr filled
  /\ step6 db question w =
     (inr tt,
      after w
        [ chroma_similarity_search false question None; embed_query question;
          environ_get OPENAI_API_KEY; chat_completion_create 0 filled ]
        [ chat_completion 0 filled ]).
Proof.
  intros Hkey context_docs context filled.
  assert (Hcontext : context_of db question = context)
    by apply join_separated.
  split; [reflexivity|]. split.
  - apply format_qa_template.
    + apply lookup_insert_eq.
    + rewrite lookup_insert_ne by discriminate. apply lookup_singleton_eq.
  - rewrite (step6_run db question w key Hkey).
    unfold answer_of, filled_prompt. rewrite Hcontext. reflexivity.
Qed.

End NotebookRun.

Lemma chat_stage_steps_witness :
  let H := Demo.externals in
  let db := db_of Demo.with_key "sk-demo" in
  let filled :=
    prompt_head
    +:+ "Alpha Beta Gamma" +:+ newline
    +:+ "x" +:+ newline
    +:+ "how to load data from the wiki" +:+ newline
    +:+ "how can I make a chain remember previous things?"
    +:+ prompt_middle +:+ "What is Alpha?" +:+ prompt_tail in
  environ Demo.with_key !! OPENAI_API_KEY = Some "sk-demo" /\
  step6 db "What is Alpha?" Demo.with_key =
  (inr tt,
   after Demo.with_key
     [ chroma_similarity_search false "What is Alpha?" None;
       embed_query "What is Alpha?"; environ_get OPENAI_API_KEY;
       chat_completion_create 0 filled ]
     [ "I don't know." ]).
Proof.
  intros H db filled.
  assert (Hkey : environ Demo.with_key !! OPENAI_API_KEY = Some "sk-demo")
    by (vm_compute; reflexivity).
  split; [exact Hkey|].
  destruct (chat_stage_steps db "What is Alpha?" Demo.with_key "sk-demo" Hkey)
    as (_ & _ & Hrun).
  rewrite Hrun. vm_compute. reflexivity.
Defined.

(** *** The credential *)

Section Credential.

Context `{Externals}.

(** C8, amended: without the credential the notebook fails, and it makes no
    call of the embedding, retrieval or chat stages; but document loading,
    chunking and token counting run first.  Whenever the cost estimate of
    Task 3 is computed, which is on every token total below
    1000 * (2^1024 - 2^970), the failure is the configuration error of the
    embedding client that Task 4 constructs, raised after the cost line is
    printed; from that total on the run ends in the overflow of the cost
    estimate instead, with nothing printed. *)
Theorem missing_credential_fails_at_task4 (w : World) :
  environ w !! OPENAI_API_KEY = None ->
  let tokens := token_counts_of (chunks_of (raw_documents_of w)) in
  let total := total_tokens tokens in
  exists e new_calls printed,
    notebook w = (inl e, after w new_calls printed) /\
    stages new_calls =
      [Setup; Setup; Setup; Setup; DocumentLoading; Chunking; TokenCounting] ++
      match e with ConfigurationError _ => [Configuration] | _ => [] end /\
    (e = ConfigurationError OPENAI_API_KEY \/ e = OverflowError) /\
    ((Z.of_N total < overflow_total)%Z ->
       e = ConfigurationError OPENAI_API_KEY /\
       exists cost, cost_estimate tokens = inr cost /\
         printed = [cost_line total cost]) /\
    ((overflow_total <= Z.of_N total)%Z ->
       e = OverflowError /\ printed = []).
Proof.
  intros Hkey tokens total. unfold total_tokens in total. subst total.
  pose proof (notebook_run w) as Hrun. cbv zeta in Hrun.
  fold tokens in Hrun. rewrite Hkey in Hrun.
  pose proof (cost_estimate_unfold tokens) as Hcost. cbv zeta in Hcost.
  pose proof (thousands_finite (sum tokens)) as Hfin.
  destruct (Z_lt_le_dec (Z.of_N (sum tokens)) overflow_total) as [Hlt|Hge].
  - rewrite (proj2 Hfin Hlt) in Hcost. rewrite Hcost in Hrun |- *.
    exists (ConfigurationError OPENAI_API_KEY),
      (calls_of_preparation ++ [environ_get OPENAI_API_KEY]).
    eexists. split; [exact Hrun|]. split; [reflexivity|].
    split; [left; reflexivity|]. split.
    + intros _. split; [reflexivity|]. eexists. split; reflexivity.
    + intros Hge. exfalso. lia.
  - assert (Binary64.finite
              (Binary64.round64 (inject_Z (Z.of_N (sum tokens)) / inject_Z 1000))
            = false) as Hnf.
    { apply not_true_is_false. intros Hf. apply (proj1 Hfin) in Hf. lia. }
    rewrite Hnf in Hcost. rewrite Hcost in Hrun.
    exists OverflowError, calls_of_preparation, [].
    split; [exact Hrun|]. split; [reflexivity|].
    split; [right; reflexivity|]. split.
    + intros Hlt. exfalso. lia.
    + intros _. split; reflexivity.
Qed.

End Credential.

Lemma missing_credential_fails_at_task4_witness :
  let H := Demo.externals in
  environ Demo.without_key !! OPENAI_API_KEY = None /\
  exists new_calls,
    notebook Demo.without_key =
    (inl (ConfigurationError OPENAI_API_KEY),
     after Demo.without_key new_calls ["34 tokens, cost estimate: $0.00"]) /\
    stages new_calls =
      [Setup; Setup; Setup; Setup; DocumentLoading; Chunking; TokenCounting;
       Configuration].
Proof.
  intros H.
  assert (Hkey : environ Demo.without_key !! OPENAI_API_KEY = None)
    by (vm_compute; reflexivity).
  split; [exact Hkey|].
  destruct (missing_credential_fails_at_task4 Demo.without_key Hkey)
    as (e & new_calls & printed & Hrun & Hstages & _ & Hsmall & _).
  destruct (Hsmall ltac:(vm_compute; reflexivity)) as (-> & cost & Hcost & ->).
  exists new_calls. split; [|exact Hstages].
  rewrite Hrun. f_equal. f_equal.
  vm_compute in Hcost. injection Hcost as <-. vm_compute. reflexivity.
Defined.

(** C8 fails as stated: without the credential the loader, the splitter and
    the token counter have run before the notebook fails. *)
Lemma credential_is_not_checked_at_startup :
  let H := Demo.externals in
  environ Demo.without_key !! OPENAI_API_KEY = None /\
  ~ fails_before_any_stage Demo.without_key.
Proof.
  intros H. split; [vm_compute; reflexivity|].
  intros (new_calls & printed & Hrun & Hstages).
  assert (Hcalls : calls (notebook Demo.without_key).2 =
            calls_of_preparation ++ [environ_get OPENAI_API_KEY])
    by (vm_compute; reflexivity).
  rewrite Hrun in Hcalls. simpl in Hcalls. subst new_calls.
  assert (Hloading : DocumentLoading ∈
            stages (calls_of_preparation ++ [environ_get OPENAI_API_KEY])).
  { unfold stages, calls_of_preparation. simpl. repeat constructor. }
  destruct (proj1 (Forall_forall _ _) Hstages _ Hloading); discriminate.
Qed.

(** *** Step 5: querying the vector store *)

Section Query.

Context `{Externals}.

Local Open Scope run_scope.

Global Instance by_distance_transitive : Transitive by_distance.
Proof. intros a b c. unfold by_distance. apply Qle_trans. Qed.

Global Instance by_distance_total : Total by_distance.
Proof.
  intros a b. unfold by_distance.
  destruct (Qlt_le_dec b.2 a.2) as [Hlt|Hle]; [right; apply Qlt_le_weak, Hlt | by left].
Qed.

Lemma StronglySorted_take {A : Type} (R : relation A) (l : list A) (k : nat) :
  StronglySorted R l -> StronglySorted R (take k l).
Proof.
  intros Hl. revert k. induction Hl as [|x l Hl IH Hx]; intros [|k]; simpl;
    try constructor.
  - apply IH.
  - apply Forall_take, Hx.
Qed.

Lemma nearest_length entries query_vector k :
  length (nearest entries query_vector k) <= k.
Proof. unfold nearest. rewrite length_take. lia. Qed.

Lemma nearest_sorted entries query_vector k :
  StronglySorted by_distance (nearest entries query_vector k).
Proof.
  unfold nearest. apply StronglySorted_take.
  apply (StronglySorted_merge_sort by_distance).
Qed.

Lemma similarity_search_with_score_run db text k w :
  similarity_search_with_score db text k w =
  (inr (nearest (collection db) (embedding_of text) (default DEFAULT_K k)),
   after w [chroma_similarity_search true text k; embed_query text] []).
Proof.
  unfold similarity_search_with_score.
  unfold bind at 1. rewrite call_run. unfold bind at 1. rewrite call_run.
  unfold ret. rewrite after_after. reflexivity.
Qed.

Lemma similarity_search_run db text k w :
  similarity_search db text k w =
  (inr ((nearest (collection db) (embedding_of text) (default DEFAULT_K k)).*1),
   after w [chroma_similarity_search false text k; embed_query text] []).
Proof.
  unfold similarity_search.
  unfold bind at 1. rewrite call_run. unfold bind at 1. rewrite call_run.
  unfold ret. rewrite after_after. reflexivity.
Qed.

(** C2: for every query text and every [k], the query returns at most [k]
    results, in order of non-decreasing distance: the results are the first
    [k] of the scored entries of the store arranged by distance. *)
Theorem query_returns_at_most_k_sorted (db : Chroma) (text : string) (k : nat)
    (w : World) :
  exists results,
    (similarity_search_with_score db text (Some k) w).1 = inr results /\
    length results <= k /\
    StronglySorted by_distance results /\
    exists arranged,
      arranged ≡ₚ scored (embedding_of text) <$> collection db /\
      StronglySorted by_distance arranged /\
      results = take k arranged.
Proof.
  rewrite similarity_search_with_score_run. simpl.
  eexists. split; [reflexivity|].
  split; [apply nearest_length|]. split; [apply nearest_sorted|].
  exists (merge_sort by_distance (scored (embedding_of text) <$> collection db)).
  split; [apply merge_sort_Permutation|].
  split; [apply (StronglySorted_merge_sort by_distance) | reflexivity].
Qed.

(** The results of a query are a function of the entries of the store and
    of the query text alone.  Two stores opened from directories with the
    same persisted entries answer a query alike, whatever else differs in
    the two worlds; and a query leaves the persisted stores as they were, so
    that a second execution after the first returns the same sequence. *)
Lemma query_reads_only_the_store (dir text : string) (k : option nat)
    (e1 e2 : OpenAIEmbeddings) (w1 w2 : World) :
  chroma_data w1 !! dir = chroma_data w2 !! dir ->
  let query e := db <- Chroma_new dir e ;; similarity_search_with_score db text k in
  let twice e :=
    first <- query e ;; second <- query e ;; ret (first, second) in
  (query e1 w1).1 = (query e2 w2).1 /\
  chroma_data (query e1 w1).2 = chroma_data w1 /\
  exists results, (twice e1 w1).1 = inr (results, results).
Proof.
  intros Hsame query twice.
  assert (Hquery : forall e w,
            query e w =
            (inr (nearest (default [] (chroma_data w !! dir)) (embedding_of text)
                    (default DEFAULT_K k)),
             after w [chroma_open dir; chroma_similarity_search true text k;
                      embed_query text] [])).
  { intros e w. unfold query, Chroma_new.
    unfold bind at 1. unfold bind at 1. rewrite call_run.
    unfold bind at 1. unfold read_chroma_data, ret.
    rewrite similarity_search_with_score_run, after_after. reflexivity. }
  split; [|split].
  - rewrite !Hquery. simpl. by rewrite Hsame.
  - rewrite Hquery. reflexivity.
  - eexists. unfold twice. unfold bind at 1. rewrite Hquery.
    unfold bind at 1. rewrite Hquery. unfold ret. simpl. reflexivity.
Qed.

End Query.

(** *** The calls of a run *)

Section Calls.

Context `{Externals}.

Local Open Scope run_scope.

(** Membership in a list that is written out. *)
Ltac members :=
  repeat match goal with
         | Hin : _ ∈ _ ++ _ |- _ => apply elem_of_app in Hin; destruct Hin as [Hin|Hin]
         | Hin : _ ∈ _ :: _ |- _ => apply elem_of_cons in Hin; destruct Hin as [Hin|Hin]
         | Hin : _ ∈ [] |- _ => by apply elem_of_nil in Hin
         end.

(** The calls of a run, whichever way it ends. *)
Lemma notebook_calls w :
  exists new_calls printed,
    (notebook w).2 = after w new_calls printed /\
    ((notebook w).1 = inr tt ->
       exists key,
         new_calls = calls_of_preparation ++ calls_of_retrieval (db_of w key)) /\
    forall c, c ∈ new_calls ->
      c ∈ calls_of_preparation \/ exists db, c ∈ calls_of_retrieval db.
Proof.
  pose proof (notebook_run w) as Hrun. cbv zeta in Hrun.
  destruct (cost_estimate _) as [e|cost].
  { rewrite Hrun. eexists _, _. split; [reflexivity|].
    split; [discriminate|]. intros c Hc. by left. }
  destruct (environ w !! OPENAI_API_KEY) as [key|].
  - rewrite Hrun. eexists _, _. split; [reflexivity|].
    split; [intros _; by exists key|]. intros c Hc.
    apply elem_of_app in Hc as [Hc|Hc]; [by left | right; by exists (db_of w key)].
  - rewrite Hrun. eexists _, _. split; [reflexivity|].
    split; [discriminate|]. intros c Hc.
    apply elem_of_app in Hc as [Hc|Hc]; [by left|].
    right. exists (db_of w EmptyString).
    apply list_elem_of_singleton in Hc as ->. unfold calls_of_retrieval.
    apply list_elem_of_here.
Qed.

(** X9: the notebook leaves the number of results to the library.  In any
    run, however it ends, the only searches are the scored search of Step 5
    for its question and the plain search of Step 6 for the question of the
    chat cell, in this order when the run completes, and neither is given
    a [k]. *)
Theorem searches_are_given_no_k (w : World) :
  exists new_calls printed,
    (notebook w).2 = after w new_calls printed /\
    (forall with_score text k,
       chroma_similarity_search with_score text k ∈ new_calls ->
       k = None /\
       (with_score = true /\ text = "how to load data from wikipedia?" \/
        with_score = false /\ text = question)) /\
    ((notebook w).1 = inr tt ->
       filter (fun c => stage_of c = Retrieval) new_calls =
       [ chroma_similarity_search true "how to load data from wikipedia?" None;
         embed_query "how to load data from wikipedia?";
         chroma_similarity_search false question None; embed_query question ]).
Proof.
  destruct (notebook_calls w) as (new_calls & printed & Hrun & Hdone & Hcalls).
  exists new_calls, printed. split; [exact Hrun|]. split.
  - intros with_score text k Hin.
    destruct (Hcalls _ Hin) as [Hc|[db Hc]];
      unfold calls_of_preparation, calls_of_retrieval in Hc; members;
      try discriminate Hc; injection Hc as -> -> ->;
      (split; [reflexivity|]); [left | right]; split; reflexivity.
  - intros Hok. destruct (Hdone Hok) as [key ->]. reflexivity.
Qed.

(** C10: the notebook never ingests.  Whichever way a run ends, the stores
    persisted on disk are what they were; no call embeds documents and none
    persists a store; the only store opened is the one provided in
    [chroma-data-langchain-docs], and a run that completes has opened it. *)
Theorem store_is_opened_and_never_written (w : World) :
  chroma_data (notebook w).2 = chroma_data w /\
  exists new_calls printed,
    (notebook w).2 = after w new_calls printed /\
    Forall (fun c =>
              (forall texts, c <> embed_documents texts) /\
              (forall dir, c <> chroma_persist dir) /\
              (forall dir, c = chroma_open dir ->
                 dir = "chroma-data-langchain-docs")) new_calls /\
    ((notebook w).1 = inr tt ->
       chroma_open "chroma-data-langchain-docs" ∈ new_calls).
Proof.
  destruct (notebook_calls w) as (new_calls & printed & Hrun & Hdone & Hcalls).
  split; [by rewrite Hrun|].
  exists new_calls, printed. split; [exact Hrun|]. split.
  - apply Forall_forall. intros c Hin.
    destruct (Hcalls _ Hin) as [Hc|[db Hc]];
      unfold calls_of_preparation, calls_of_retrieval in Hc; members; subst c;
      (split; [|split]); intros; try discriminate; congruence.
  - intros Hok. destruct (Hdone Hok) as [key ->].
    apply elem_of_app. right. unfold calls_of_retrieval.
    do 2 apply list_elem_of_further. apply list_elem_of_here.
Qed.

End Calls.

(** The two statements that Task 4 leaves commented out do write: run on
    the documents of the demonstration, they add a store to the disk. *)
Lemma ingestion_would_write :
  let H := Demo.externals in
  let docs := chunks_of (raw_documents_of Demo.with_key) in
  let w' := (task4_ingestion docs {| openai_api_key := "sk-demo" |} Demo.with_key).2 in
  chroma_data Demo.with_key !! "my-embeddings" = None /\
  length <$> chroma_data w' !! "my-embeddings" = Some 2 /\
  embed_documents (page_content <$> docs) ∈ calls w' /\
  chroma_persist "my-embeddings" ∈ calls w'.
Proof.
  intros H docs w'. vm_compute.
  split; [reflexivity|]. split; [reflexivity|].
  split; repeat constructor.
Qed.

(** ** The properties on the demonstration *)

(** The notebook runs to completion on the demonstration. *)
Lemma demo_run_completes :
  (@notebook Demo.externals Demo.with_key).1 = inr tt /\
  stdout (@notebook Demo.externals Demo.with_key).2 !! 0
  = Some "34 tokens, cost estimate: $0.00".
Proof. vm_compute. split; reflexivity. Qed.

Lemma query_returns_at_most_k_sorted_witness :
  let H := Demo.externals in
  exists results,
    (similarity_search_with_score (db_of Demo.with_key "sk-demo")
       "What is Alpha?" (Some 2) Demo.with_key).1 = inr results /\
    page_content <$> results.*1 = ["Alpha Beta Gamma"; "x"] /\
    StronglySorted by_distance results.
Proof.
  intros H.
  destruct (query_returns_at_most_k_sorted (db_of Demo.with_key "sk-demo")
              "What is Alpha?" 2 Demo.with_key)
    as (results & Hrun & _ & Hsorted & _).
  exists results. split; [exact Hrun|]. split; [|exact Hsorted].
  vm_compute in Hrun. injection Hrun as <-. vm_compute. reflexivity.
Defined.

Lemma store_is_opened_and_never_written_witness :
  let H := Demo.externals in
  (notebook Demo.with_key).1 = inr tt /\
  chroma_data (notebook Demo.with_key).2 = chroma_data Demo.with_key /\
  chroma_open "chroma-data-langchain-docs" ∈ calls (notebook Demo.with_key).2.
Proof.
  intros H.
  assert (Hok : (notebook Demo.with_key).1 = inr tt) by (vm_compute; reflexivity).
  destruct (store_is_opened_and_never_written Demo.with_key)
    as (Hframe & new_calls & printed & Hrun & _ & Hopen).
  split; [exact Hok|]. split; [exact Hframe|].
  rewrite Hrun. simpl. exact (Hopen Hok).
Defined.

(** * Further properties of the cells *)

(** ** More on Task 3: totals, printed amounts, overflow *)

(** The float that the cost expression gives for a token total (when the
    division does not overflow). *)
Definition float_cost (total : N) : Q :=
  Binary64.round64
    (Binary64.round64 (inject_Z (Z.of_N total) / inject_Z 1000) * price)%Q.

(** The amount in cents that [f"{x:.2f}"] shows for a float that is not
    negative. *)
Definition cents_shown (q : Q) : N := Z.to_N (Binary64.rne (Qabs q * 100)%Q).

Section MoreCostFacts.

Import Binary64.
Local Open Scope Q_scope.

Lemma float_cost_nonneg n : 0 <= float_cost n.
Proof.
  unfold float_cost. apply round64_nonneg.
  pose proof (round64_nonneg _ (thousands_nonneg n)). unfold price. lra.
Qed.

Lemma float_cost_mono n m : (n <= m)%N -> float_cost n <= float_cost m.
Proof.
  intros Hnm. unfold float_cost.
  pose proof (thousands_nonneg n) as HT.
  pose proof (round64_nonneg _ HT) as Hth.
  pose proof (round64_mono _ _ HT (thousands_mono _ _ Hnm)) as Hmono.
  apply round64_mono; unfold price; lra.
Qed.

Lemma cost_estimate_value tokens q :
  cost_estimate tokens = inr (Finite q) -> q = float_cost (sum tokens).
Proof.
  rewrite cost_estimate_unfold. cbv zeta. unfold float_cost.
  destruct (finite _); [|discriminate]. intros Heq. injection Heq as <-.
  reflexivity.
Qed.

Lemma cost_estimate_is_finite tokens c :
  cost_estimate tokens = inr c -> c = Finite (float_cost (sum tokens)).
Proof.
  rewrite cost_estimate_unfold. cbv zeta. unfold float_cost.
  destruct (finite _); [|discriminate]. intros Heq. injection Heq as <-.
  reflexivity.
Qed.

Lemma sum_app (l l' : list N) : sum (l ++ l') = (sum l + sum l')%N.
Proof. unfold sum. induction l as [|x l IH]; simpl; [done|]. rewrite IH. lia. Qed.

Lemma sum_permutation (l l' : list N) : l ≡ₚ l' -> sum l = sum l'.
Proof.
  unfold sum. induction 1 as [|x l l' Hperm IH|x y l|l l' l'' H1 IH1 H2 IH2]; simpl;
    [reflexivity | by rewrite IH | lia | congruence].
Qed.


Lemma rne_Qeq x y : x == y -> rne x = rne y.
Proof. intros Hxy. apply Z.le_antisymm; apply rne_mono; lra. Qed.

Lemma cents_shown_of_nonneg q :
  0 <= q -> Z.of_N (cents_shown q) = rne (q * 100).
Proof.
  intros Hq. unfold cents_shown.
  rewrite (rne_Qeq (Qabs q * 100) (q * 100)) by (rewrite Qabs_pos by exact Hq; reflexivity).
  apply Z2N.id. apply (rne_ge_int _ 0). change (inject_Z 0) with 0. lra.
Qed.

Lemma cents_shown_mono q q' : 0 <= q -> q <= q' -> (cents_shown q <= cents_shown q')%N.
Proof.
  intros Hq Hqq'.
  pose proof (cents_shown_of_nonneg q Hq) as Hc.
  assert (Hq' : 0 <= q') by lra.
  pose proof (cents_shown_of_nonneg q' Hq') as Hc'.
  assert (rne (q * 100) <= rne (q' * 100))%Z by (apply rne_mono; lra).
  lia.
Qed.

Lemma append_empty_l (s : string) : EmptyString +:+ s = s.
Proof. reflexivity. Qed.

Lemma format_2f_cents q :
  0 <= q ->
  format_2f (Finite q) =
  str_int (cents_shown q / 100) +:+ "." +:+ two_digits (cents_shown q mod 100).
Proof.
  intros Hq. unfold format_2f, Qneg. fold (cents_shown q).
  assert (Qle_bool 0 q = true) as -> by (apply Qle_bool_iff; exact Hq).
  cbv [negb]. apply append_empty_l.
Qed.

End MoreCostFacts.

Section MoreCost.

Context `{Externals}.

Import Binary64.
Local Open Scope Q_scope.

(** X1: the token total of a corpus is the sum of the totals of its parts
    and does not depend on the order of the chunks, and neither does the
    cost estimate; adding chunks to a corpus never lowers the estimate, and
    when the estimate of the larger corpus is defined so is that of the
    smaller. *)
Theorem cost_estimate_of_more_chunks (documents more : list Document) :
  total_tokens (token_counts_of (documents ++ more))
  = (total_tokens (token_counts_of documents) + total_tokens (token_counts_of more))%N
  /\ (forall documents',
        documents ≡ₚ documents' ->
        cost_estimate (token_counts_of documents)
        = cost_estimate (token_counts_of documents'))
  /\ (forall cost',
        cost_estimate (token_counts_of (documents ++ more)) = inr cost' ->
        exists q q',
          cost_estimate (token_counts_of documents) = inr (Finite q) /\
          cost' = Finite q' /\ q <= q').
Proof.
  assert (Happ : total_tokens (token_counts_of (documents ++ more))
                 = (total_tokens (token_counts_of documents)
                    + total_tokens (token_counts_of more))%N).
  { unfold total_tokens, token_counts_of, doc_tokens. rewrite fmap_app. apply sum_app. }
  split; [exact Happ|]. split.
  - intros documents' Hperm. unfold cost_estimate. do 3 f_equal.
    apply sum_permutation. unfold token_counts_of, doc_tokens. by rewrite Hperm.
  - intros cost' Hcost'.
    pose proof (cost_estimate_is_finite _ _ Hcost') as ->.
    unfold total_tokens in Happ.
    assert (Hle : (sum (token_counts_of documents)
                   <= sum (token_counts_of (documents ++ more)))%N) by lia.
    exists (float_cost (sum (token_counts_of documents))),
      (float_cost (sum (token_counts_of (documents ++ more)))).
    split; [|split; [reflexivity | apply float_cost_mono; exact Hle]].
    rewrite cost_estimate_unfold in Hcost' |- *. cbv zeta in *.
    destruct (finite (round64 (inject_Z (Z.of_N (sum (token_counts_of (documents ++ more))))
                               / inject_Z 1000))) eqn:Hbig; [|discriminate].
    apply thousands_finite in Hbig.
    assert (Hsmall : (Z.of_N (sum (token_counts_of documents)) < overflow_total)%Z) by lia.
    apply thousands_finite in Hsmall. rewrite Hsmall. unfold float_cost. reflexivity.
Qed.

(** X2: the amount that the cost line shows.  It is never negative and is
    the float estimate rounded to the cent; it is within half a cent, and a
    relative 2^-51, of the exact cost; it is $0.00 exactly for the totals up
    to 12,499 tokens; and it never decreases when the total grows. *)
Theorem cost_line_shows_cents (documents : list Document) (q : Q) :
  let tokens := token_counts_of documents in
  let total := total_tokens tokens in
  cost_estimate tokens = inr (Finite q) ->
  cost_line total (Finite q) =
    str_int total +:+ " tokens, cost estimate: $" +:+
    str_int (cents_shown q / 100) +:+ "." +:+ two_digits (cents_shown q mod 100)
  /\ Qabs (inject_Z (Z.of_N (cents_shown q)) / 100 - exact_cost total (4 # 10000))
     <= (1 # 200) + exact_cost total (4 # 10000) * pow2 (-51)
  /\ (cents_shown q = 0%N <-> (total <= 12499)%N)
  /\ (forall documents' q',
        (total <= total_tokens (token_counts_of documents'))%N ->
        cost_estimate (token_counts_of documents') = inr (Finite q') ->
        (cents_shown q <= cents_shown q')%N).
Proof.
  intros tokens total Hcost. unfold total_tokens in total. subst total.
  pose proof (cost_estimate_value _ _ Hcost) as Hq.
  pose proof (float_cost_nonneg (sum tokens)) as Hnonneg. rewrite <- Hq in Hnonneg.
  split; [|split; [|split]].
  - unfold cost_line. rewrite (format_2f_cents q Hnonneg). reflexivity.
  - pose proof (cost_estimate_accurate _ _ Hcost) as Hacc.
    apply Qabs_Qle_condition in Hacc.
    pose proof (rne_error (q * 100)) as Hcent. apply Qabs_Qle_condition in Hcent.
    rewrite (cents_shown_of_nonneg q Hnonneg).
    change (pow2 (-51)) with (1 # 2251799813685248) in *.
    apply Qabs_Qle_condition.
    set (c := inject_Z (rne (q * 100))) in *.
    set (exact := exact_cost (sum tokens) (4 # 10000)) in *.
    assert (Hdiv : c / 100 == c * (1 # 100)) by (field).
    rewrite Hdiv. split; lra.
  - pose proof (cents_shown_of_nonneg q Hnonneg) as Hc.
    split.
    + intros Hzero.
      destruct (N.le_gt_cases (sum tokens) 12499) as [Hok|Hbig]; [exact Hok|]. exfalso.
      assert (Hle : (12500 <= sum tokens)%N) by lia.
      pose proof (float_cost_mono _ _ Hle) as Hmono. rewrite <- Hq in Hmono.
      assert (1 <= rne (q * 100))%Z.
      { assert (Hone : rne (float_cost 12500 * 100) = 1%Z) by (vm_compute; reflexivity).
        rewrite <- Hone. apply rne_mono. lra. }
      lia.
    + intros Hsmall.
      pose proof (float_cost_mono _ _ Hsmall) as Hmono. rewrite <- Hq in Hmono.
      assert (rne (q * 100) <= 0)%Z.
      { assert (Hzero : rne (float_cost 12499 * 100) = 0%Z) by (vm_compute; reflexivity).
        rewrite <- Hzero. apply rne_mono. lra. }
      lia.
  - intros documents' q' Hle Hcost'.
    pose proof (cost_estimate_value _ _ Hcost') as Hq'.
    apply cents_shown_mono; [exact Hnonneg|].
    rewrite Hq, Hq'. apply float_cost_mono. exact Hle.
Qed.

End MoreCost.

Section Overflow.

Import Binary64.

(** X3: the cost expression raises exactly from a total of
    1000 * (2^1024 - 2^970) tokens on, where the quotient by 1000 rounds
    beyond the largest float, and the exception is OverflowError; below
    that total it gives a finite float that is not negative, and zero only
    for no tokens at all. *)
Theorem cost_estimate_overflows_from (doc_tokens : list N) :
  (cost_estimate doc_tokens = inl OverflowError
   <-> (overflow_total <= Z.of_N (sum doc_tokens))%Z)
  /\ ((Z.of_N (sum doc_tokens) < overflow_total)%Z ->
        exists q, cost_estimate doc_tokens = inr (Finite q) /\ (0 <= q)%Q /\
                  (q == 0 <-> sum doc_tokens = 0%N)%Q)
  /\ (forall e, cost_estimate doc_tokens = inl e -> e = OverflowError).
Proof.
  pose proof (thousands_finite (sum doc_tokens)) as Hfin.
  pose proof (cost_estimate_unfold doc_tokens) as Hcost. cbv zeta in Hcost.
  split; [|split].
  - rewrite Hcost.
    destruct (Z_lt_le_dec (Z.of_N (sum doc_tokens)) overflow_total) as [Hlt|Hge].
    + rewrite (proj2 Hfin Hlt). split; [discriminate | lia].
    + assert (finite (round64 (inject_Z (Z.of_N (sum doc_tokens)) / inject_Z 1000))
              = false) as ->.
      { apply not_true_is_false. intros Hf. apply (proj1 Hfin) in Hf. lia. }
      split; [intros _; exact Hge | reflexivity].
  - intros Hlt. rewrite Hcost, (proj2 Hfin Hlt).
    exists (float_cost (sum doc_tokens)). split; [unfold float_cost; reflexivity|].
    split; [apply float_cost_nonneg|].
    split.
    + intros Hzero.
      destruct (N.eq_dec (sum doc_tokens) 0%N) as [Hnone|Hpos]; [exact Hnone|]. exfalso.
      assert (Hle : (1 <= sum doc_tokens)%N) by lia.
      pose proof (float_cost_mono _ _ Hle) as Hmono.
      assert (Hone : (0 < float_cost 1)%Q) by (vm_compute; reflexivity).
      lra.
    + intros ->. vm_compute. reflexivity.
  - apply cost_estimate_raises.
Qed.

End Overflow.

(** ** More on Step 6: the prompt and the chat cell *)

Section MorePrompt.

Lemma join_length (sep : string) (l : list string) :
  String.length (join sep l)
  = sum_list (String.length <$> l) + String.length sep * (length l - 1).
Proof.
  induction l as [|s l IH]; [simpl; lia|].
  destruct l as [|s' l].
  - simpl. lia.
  - change (join sep (s :: s' :: l)) with (s +:+ sep +:+ join sep (s' :: l)).
    rewrite !string_length_app, IH. simpl. lia.
Qed.

Lemma filled_prompt_length (context question : string) :
  String.length (filled_prompt context question)
  = 214 + String.length context + String.length question.
Proof.
  unfold filled_prompt. rewrite !string_length_app.
  change (String.length prompt_head) with 175.
  change (String.length prompt_middle) with 23.
  change (String.length prompt_tail) with 16. lia.
Qed.

Lemma sum_lengths_bound (docs : list Document) (n : nat) :
  Forall (fun d => String.length (page_content d) <= n) docs ->
  sum_list (String.length ∘ page_content <$> docs) <= length docs * n.
Proof.
  induction 1 as [|d l Hd Hl IH]; [reflexivity|].
  simpl. apply Nat.add_le_mono; [exact Hd | exact IH].
Qed.

(** X7: the size of the prompt the chat cell builds.  For any retrieved
    documents and any question the template is filled, and the filled prompt
    has the 214 characters of the template's own text, the characters of the
    question, those of the documents, and one newline between two
    documents; so [m] documents of at most [n] characters each give a
    prompt of at most [214 + m * n + (m - 1)] characters and the
    question. *)
Theorem prompt_length (context_docs : list Document) (question : string) :
  exists filled,
    format qa_template
      {[ "context" := join newline (page_content <$> context_docs);
         "question" := question ]} = inr filled
    /\ String.length filled
       = 214 + String.length question
         + sum_list (String.length ∘ page_content <$> context_docs)
         + (length context_docs - 1)
    /\ forall n,
         Forall (fun d => String.length (page_content d) <= n) context_docs ->
         String.length filled
         <= 214 + String.length question
            + length context_docs * n + (length context_docs - 1).
Proof.
  exists (filled_prompt (join newline (page_content <$> context_docs)) question).
  assert (Hlen : String.length
                   (filled_prompt (join newline (page_content <$> context_docs)) question)
                 = 214 + String.length question
                   + sum_list (String.length ∘ page_content <$> context_docs)
                   + (length context_docs - 1)).
  { rewrite filled_prompt_length, join_length, length_fmap.
    rewrite <- list_fmap_compose. change (String.length newline) with 1. lia. }
  split; [|split; [exact Hlen|]].
  - apply format_qa_template.
    + apply lookup_insert_eq.
    + rewrite lookup_insert_ne by discriminate. apply lookup_singleton_eq.
  - intros n Hn. rewrite Hlen.
    pose proof (sum_lengths_bound _ _ Hn). lia.
Qed.

(** X8: the template does not set the retrieved text apart from the
    question.  A context whose tail reads like the closing tag and the
    question line gives the same prompt as the shorter context with that
    tail moved into the question: the filled prompt does not determine the
    context and the question it was made from. *)
Theorem retrieved_text_can_pose_as_the_question (context tail question : string) :
  format qa_template
    {[ "context" := context +:+ prompt_middle +:+ tail; "question" := question ]}
  = format qa_template
      {[ "context" := context; "question" := tail +:+ prompt_middle +:+ question ]}
  /\ context +:+ prompt_middle +:+ tail <> context.
Proof.
  split.
  - rewrite (format_qa_template _ (context +:+ prompt_middle +:+ tail) question).
    2:{ apply lookup_insert_eq. }
    2:{ rewrite lookup_insert_ne by discriminate. apply lookup_singleton_eq. }
    rewrite (format_qa_template _ context (tail +:+ prompt_middle +:+ question)).
    2:{ apply lookup_insert_eq. }
    2:{ rewrite lookup_insert_ne by discriminate. apply lookup_singleton_eq. }
    unfold filled_prompt. by rewrite !string_app_assoc.
  - intros Heq. apply (f_equal String.length) in Heq.
    rewrite !string_length_app in Heq.
    change (String.length prompt_middle) with 23 in Heq. lia.
Qed.

End MorePrompt.

(** ** More on the runs of the notebook *)

Section MoreRuns.

Context `{Externals}.

Local Open Scope run_scope.

(** X5: the chat cell without the credential.  The cell searches first and
    constructs the chat client afterwards, so with no credential it fails
    with the configuration error only after the search and the embedding of
    the question; it makes no chat call, prints nothing and leaves the
    stores alone. *)
Theorem chat_cell_without_credential (db : Chroma) (question : string) (w : World) :
  environ w !! OPENAI_API_KEY = None ->
  step6 db question w =
  (inl (ConfigurationError OPENAI_API_KEY),
   after w [ chroma_similarity_search false question None; embed_query question;
             environ_get OPENAI_API_KEY ] []).
Proof.
  intros Hkey. unfold step6.
  unfold bind at 1. rewrite similarity_search_run.
  unfold bind at 1. rewrite ChatOpenAI_new_run. simpl environ. rewrite Hkey.
  rewrite after_after. reflexivity.
Qed.

End MoreRuns.

(** ** The further properties on the demonstration *)

Lemma cost_line_shows_cents_witness :
  let H := Demo.externals in
  let chunk n := {| page_content := N.iter n (String "a") EmptyString;
                    metadata := ∅ |} in
  cost_estimate (token_counts_of [chunk 12499%N]) = inr (Finite (float_cost 12499)) /\
  cents_shown (float_cost 12499) = 0%N /\
  cost_line (total_tokens (token_counts_of [chunk 12499%N])) (Finite (float_cost 12499))
  = "12499 tokens, cost estimate: $0.00" /\
  cost_line 12500 (Finite (float_cost 12500)) = "12500 tokens, cost estimate: $0.01".
Proof.
  intros H chunk.
  assert (Hcost : cost_estimate (token_counts_of [chunk 12499%N])
                  = inr (Finite (float_cost 12499))) by (vm_compute; reflexivity).
  destruct (cost_line_shows_cents [chunk 12499%N] (float_cost 12499) Hcost)
    as (Hline & _ & Hzero & _).
  assert (Hcents : cents_shown (float_cost 12499) = 0%N).
  { apply (proj2 Hzero). vm_compute. discriminate. }
  split; [exact Hcost|]. split; [exact Hcents|]. split.
  - rewrite Hline, Hcents. vm_compute. reflexivity.
  - vm_compute. reflexivity.
Defined.

Lemma chat_cell_without_credential_witness :
  let H := Demo.externals in
  environ Demo.without_key !! OPENAI_API_KEY = None /\
  step6 (db_of Demo.without_key "sk-demo") "What is Alpha?" Demo.without_key =
  (inl (ConfigurationError OPENAI_API_KEY),
   after Demo.without_key
     [ chroma_similarity_search false "What is Alpha?" None;
       embed_query "What is Alpha?"; environ_get OPENAI_API_KEY ] []).
Proof.
  intros H.
  assert (Hkey : environ Demo.without_key !! OPENAI_API_KEY = None)
    by (vm_compute; reflexivity).
  split; [exact Hkey|].
  exact (chat_cell_without_credential (db_of Demo.without_key "sk-demo")
           "What is Alpha?" Demo.without_key Hkey).
Defined.

(** A total from which the cost expression overflows, and the one before. *)
Lemma cost_estimate_overflows_from_witness :
  cost_estimate [Z.to_N overflow_total] = inl OverflowError /\
  exists q, cost_estimate [Z.to_N (overflow_total - 1)] = inr (Finite q).
Proof.
  split.
  - apply (proj1 (cost_estimate_overflows_from [Z.to_N overflow_total])).
    vm_compute. discriminate.
  - destruct (proj1 (proj2 (cost_estimate_overflows_from [Z.to_N (overflow_total - 1)])))
      as (q & Hq & _); [vm_compute; reflexivity|].
    by exists q.
Defined.
